(** * generate_marking_ds.py: a shallow embedding and its properties

    The script reads the paragraphs of a reference .docx, picks clause texts by
    position (with built-in fallbacks), and appends a fixed sequence of styled
    paragraphs to a fresh document.  Python [str] values are modelled as lists
    of Unicode code points, the clause dictionary as a [gmap], exceptions as an
    error monad, and the python-docx document as a record that is threaded
    through the paragraph constructors. *)

From Stdlib Require Import ZArith Lia.
From stdpp Require Import base list gmap strings.

Local Open Scope Z_scope.

(** ** Python strings *)

Module Py.

(** A [str] is a sequence of code points. *)
Abbreviation str := (list Z).

(** Literals are written as UTF-8 text and decoded to code points. *)
Fixpoint utf8_decode (need : nat) (acc : Z) (bs : list Z) : str :=
  match bs with
  | [] => []
  | b :: bs' =>
      match need with
      | O =>
          if b <? 128 then b :: utf8_decode 0 0 bs'
          else if b <? 224 then utf8_decode 1 (Z.land b 31) bs'
          else if b <? 240 then utf8_decode 2 (Z.land b 15) bs'
          else utf8_decode 3 (Z.land b 7) bs'
      | S n =>
          let acc' := acc * 64 + Z.land b 63 in
          match n with
          | O => acc' :: utf8_decode 0 0 bs'
          | S _ => utf8_decode n acc' bs'
          end
      end
  end.

Definition u (s : string) : str :=
  utf8_decode 0 0
    (List.map (fun a => Z.of_N (Ascii.N_of_ascii a)) (String.list_ascii_of_string s)).

(** Code points used by the script. *)
Definition TAB : Z := 9.
Definition LF : Z := 10.
Definition CR : Z := 13.
Definition SPACE : Z := 32.
Definition HYPHEN : Z := 45.
Definition DOT : Z := 46.
Definition NBSP : Z := 160.          (* \xa0 *)
Definition EM_DASH : Z := 8212.      (* U+2014 *)
Definition LINE_SEP : Z := 8232.     (* U+2028 *)
Definition NNBSP : Z := 8239.        (* U+202F *)

(** [str.isspace] on one code point (CPython's whitespace table). *)
Definition isspace (c : Z) : bool :=
  ((9 <=? c) && (c <=? 13)) || ((28 <=? c) && (c <=? 32))
  || (c =? 133) || (c =? 160) || (c =? 5760)
  || ((8192 <=? c) && (c <=? 8202))
  || (c =? 8232) || (c =? 8233) || (c =? 8239) || (c =? 8287) || (c =? 12288).

Fixpoint dropwhile (f : Z -> bool) (s : str) : str :=
  match s with
  | [] => []
  | c :: s' => if f c then dropwhile f s' else s
  end.

Definition lstrip_by (f : Z -> bool) (s : str) : str := dropwhile f s.
Definition rstrip_by (f : Z -> bool) (s : str) : str :=
  reverse (dropwhile f (reverse s)).

(** [s.strip()] *)
Definition strip (s : str) : str := rstrip_by isspace (lstrip_by isspace s).

(** [s.strip(chars)] *)
Definition member (chars : str) (c : Z) : bool := existsb (Z.eqb c) chars.
Definition strip_chars (chars s : str) : str :=
  rstrip_by (member chars) (lstrip_by (member chars) s).

(** [s.startswith(p)] *)
Fixpoint startswith (p s : str) : bool :=
  match p, s with
  | [], _ => true
  | _ :: _, [] => false
  | a :: p', b :: s' => (a =? b) && startswith p' s'
  end.

(** [s.replace(old, new)] for a non-empty [old]: occurrences are taken
    left to right and do not overlap.  [skip] counts the code points of the
    occurrence being replaced that are still to be consumed. *)
Fixpoint replace_from (skip : nat) (old new s : str) : str :=
  match s with
  | [] => []
  | c :: s' =>
      match skip with
      | S k => replace_from k old new s'
      | O =>
          if startswith old s
          then new ++ replace_from (Nat.pred (length old)) old new s'
          else c :: replace_from 0 old new s'
      end
  end.

Definition replace (old new s : str) : str := replace_from 0 old new s.

(** [s.split(sep)] for a one-code-point separator: always at least one piece. *)
Fixpoint split (sep : Z) (s : str) : list str :=
  match s with
  | [] => [[]]
  | c :: s' =>
      if c =? sep then [] :: split sep s'
      else match split sep s' with
           | [] => [[c]]
           | piece :: rest => (c :: piece) :: rest
           end
  end.

(** [re.split(r"[...]+", s)] for a character class [cls]: the separators are
    the maximal runs of code points of the class.  [in_run] tells that the
    previous code point belonged to a separator. *)
Fixpoint re_split_runs (cls : Z -> bool) (in_run : bool) (s : str) : list str :=
  match s with
  | [] => [[]]
  | c :: s' =>
      if cls c then
        if in_run then re_split_runs cls true s'
        else [] :: re_split_runs cls true s'
      else match re_split_runs cls false s' with
           | [] => [[c]]
           | piece :: rest => (c :: piece) :: rest
           end
  end.

Definition re_split_class (cls : Z -> bool) (s : str) : list str :=
  re_split_runs cls false s.

(** [s[:-n]] for a positive [n]. *)
Definition slice_to_neg (n : nat) (s : str) : str :=
  take (length s - n)%nat s.

End Py.

Import Py.

(** ** Exceptions *)

Inductive exn : Type :=
| ValueError
| KeyError (key : str).

Inductive result (A : Type) : Type :=
| Ok (a : A)
| Raise (e : exn).
Arguments Ok {A} a.
Arguments Raise {A} e.

#[global] Instance result_ret : MRet result := fun _ a => Ok a.
#[global] Instance result_bind : MBind result := fun _ _ k r =>
  match r with
  | Ok a => k a
  | Raise e => Raise e
  end.

(** [d[k]] on a dictionary. *)
Definition getitem {K} `{Countable K} (key_repr : K -> str)
    (d : gmap K str) (k : K) : result str :=
  match d !! k with
  | Some v => Ok v
  | None => Raise (KeyError (key_repr k))
  end.

(** ** Localization helpers *)

Definition MONTHS_items : list (str * str) :=
  [ (u "01", u "января");
    (u "02", u "февраля");
    (u "03", u "марта");
    (u "04", u "апреля");
    (u "05", u "мая");
    (u "06", u "июня");
    (u "07", u "июля");
    (u "08", u "августа");
    (u "09", u "сентября");
    (u "10", u "октября");
    (u "11", u "ноября");
    (u "12", u "декабря") ].

Definition MONTHS : gmap str str := list_to_map MONTHS_items.

Definition clean (text : str) : str :=
  strip (replace [NBSP] [SPACE] (replace [LINE_SEP] [LF] text)).

Definition format_ru_date (date_ddmmyyyy : str) : result str :=
  match split DOT date_ddmmyyyy with
  | [day; month; year] =>
      name ← getitem id MONTHS month;
      mret (u "«" ++ day ++ u "» " ++ name ++ u " " ++ year ++ u " года")
  | _ => Raise ValueError
  end.

Definition agreement_label_dative (kind : str) : str :=
  if decide (kind = u "agent") then u "агентскому договору" else u "договору".

Definition agreement_label_genitive (kind : str) : str :=
  if decide (kind = u "agent") then u "агентского договора" else u "договора".

(** ** Template extractor *)

(** The built-in clause texts used when the reference document is too short. *)
Module Fallback.

Definition h1 : str :=
  u "1. Предмет соглашения".

Definition p12 : str :=
  u "1.2. Услуги по сопровождению обязательной маркировки рекламы включают:".

Definition bullets : str :=
  u "— администрирование размещений, подлежащих обязательной маркировке;" ++ [LF]
    ++ u "— взаимодействие с рекламной платформой;" ++ [LF]
    ++ u "— контроль корректности передачи данных;" ++ [LF]
    ++ u "— формирование и сверку отчётности по маркируемой рекламе.".

Definition h2 : str :=
  u "2. Стоимость услуг и порядок расчётов".

Definition p21 : str :=
  u "2.1. Стоимость Услуг маркировки составляет 3% от объёма размещений, подлежащих обязательной маркировке (за исключением поисковых размещений), согласно официальным данным рекламной платформы.".

Definition p22 : str :=
  u "2.2. Расчёт стоимости производится на основании отчёта платформы, формируемого в месяце, следующем за отчётным.".

Definition p23 : str :=
  u "2.3. В случае корректировок платформы перерасчёт стоимости производится в следующем отчётном периоде.".

Definition h3 : str :=
  u "3. Сроки оплаты".

Definition p31 : str :=
  u "3.1. Принципал обязуется оплатить сумму, рассчитанную по п.2.2, в течение 10 календарных дней с момента выставления Агентом счёта на оплату.".

Definition p32 : str :=
  u "3.2. Оплата производится на расчётный счёт Агента, указанный в Договоре, с обязательной ссылкой на номер и дату настоящего Дополнительного соглашения.".

Definition h4 : str :=
  u "4. Прочие условия".

Definition p41 : str :=
  u "4.1. Настоящее Дополнительное соглашение является неотъемлемой частью Договора.".

Definition p42 : str :=
  u "4.2. Все остальные условия Договора остаются без изменений и сохраняют силу.".

Definition p43 : str :=
  u "4.3. Настоящее Дополнительное соглашение вступает в силу с момента подписания обеими сторонами.".

Definition h5 : str :=
  u "5. Подписи сторон".

End Fallback.

(** The reference document is given by the texts of its paragraphs
    ([x.text for x in doc.paragraphs]); opening the file is the caller's
    business.  [p !!! i] is read only under the guard [len(p) > i], written
    [i <? length p]. *)
Definition extract_template_blocks (paragraphs : list str) : gmap string str :=
  let p := clean <$> paragraphs in
  list_to_map
    [ ("h1", if (6 <? length p)%nat then p !!! 6%nat else Fallback.h1);
      ("p12", if (8 <? length p)%nat then p !!! 8%nat else Fallback.p12);
      ("bullets", if (9 <? length p)%nat then p !!! 9%nat else Fallback.bullets);
      ("h2", if (10 <? length p)%nat then p !!! 10%nat else Fallback.h2);
      ("p21", if (11 <? length p)%nat then p !!! 11%nat else Fallback.p21);
      ("p22", if (12 <? length p)%nat then p !!! 12%nat else Fallback.p22);
      ("p23", if (13 <? length p)%nat then p !!! 13%nat else Fallback.p23);
      ("h3", if (14 <? length p)%nat then p !!! 14%nat else Fallback.h3);
      ("p31", if (15 <? length p)%nat then p !!! 15%nat else Fallback.p31);
      ("p32", if (16 <? length p)%nat then p !!! 16%nat else Fallback.p32);
      ("h4", if (17 <? length p)%nat then p !!! 17%nat else Fallback.h4);
      ("p41", if (18 <? length p)%nat then p !!! 18%nat else Fallback.p41);
      ("p42", if (19 <? length p)%nat then p !!! 19%nat else Fallback.p42);
      ("p43", if (20 <? length p)%nat then p !!! 20%nat else Fallback.p43);
      ("h5", if (21 <? length p)%nat then p !!! 21%nat else Fallback.h5) ].

(** ** The python-docx document *)

Module Docx.

Inductive WD_ALIGN_PARAGRAPH : Set := LEFT | CENTER | RIGHT | JUSTIFY.
Inductive WD_TAB_ALIGNMENT : Set := TAB_LEFT | TAB_RIGHT.

(** Lengths are English Metric Units, as in [docx.shared]. *)
Definition Pt (points : Z) : Z := points * 12700.
(** [Cm] of a value given in hundredths of a centimetre. *)
Definition Cm_100 (hundredths : Z) : Z := hundredths * 3600.
(** [Twips] of a whole number of twips (1/20 pt). *)
Definition Twips (n : Z) : Z := n * 635.

(** [Length.twips]: the nearest whole number of twips.  (635 is odd, so there
    is no tie.  python-docx divides in double precision; for lengths under
    2^52 EMU that gives this number.) *)
Definition twips (emu : Z) : Z := (2 * emu + 635) / 1270.

(** The document keeps a length in whole twips: what is read back after a
    length has been assigned. *)
Definition stored_length (emu : Z) : Z := Twips (twips emu).

(** The range of the unsigned measures (XsdUnsignedLong). *)
Definition unsigned_long (v : Z) : bool :=
  (0 <=? v) && (v <=? 18446744073709551615).

(** Assigning to a spacing attribute (ST_TwipsMeasure). *)
Definition assign_twips_measure (emu : Z) : result Z :=
  if unsigned_long emu then Ok (stored_length emu) else Raise ValueError.

(** Assigning to a font size (ST_HpsMeasure): kept in whole half-points,
    rounded down. *)
Definition assign_hps_measure (emu : Z) : result Z :=
  if unsigned_long emu then Ok (emu / 6350 * 6350) else Raise ValueError.

(** The code points lxml accepts in element text: tab, line feed, carriage
    return and everything from U+0020 on, apart from the surrogates, U+FFFE
    and U+FFFF.  For any other it raises ValueError (for a surrogate its
    subclass UnicodeEncodeError). *)
Definition xml_char (c : Z) : bool :=
  (c =? 9) || (c =? 10) || (c =? 13)
  || ((32 <=? c) && negb ((55296 <=? c) && (c <=? 57343))
      && negb (c =? 65534) && negb (c =? 65535)).

Definition xml_compatible (s : str) : bool := forallb xml_char s.

(** A run keeps a carriage return as a line break, which reads back as a line
    feed; tabs and line feeds read back as they are. *)
Definition read_back (s : str) : str := (fun c => if c =? CR then LF else c) <$> s.

(** The text of a run after [p.add_run(text)], as [run.text] returns it. *)
Definition run_text_of (text : str) : result str :=
  if xml_compatible text then Ok (read_back text) else Raise ValueError.

(** A property left at [None] is inherited from the style.  Lengths are held
    as they read back. *)
Record Run : Type := mkRun {
  run_text : str;
  run_bold : option bool;
  run_font_name : option str;
  run_font_size : option Z
}.

Record Paragraph : Type := mkParagraph {
  alignment : option WD_ALIGN_PARAGRAPH;
  space_before : option Z;
  space_after : option Z;
  (** a multiple of the line height, in hundredths *)
  line_spacing : option Z;
  first_line_indent : option Z;
  tab_stops : list (Z * WD_TAB_ALIGNMENT);
  runs : list Run
}.

Record Document : Type := mkDocument {
  left_margin : option Z;
  right_margin : option Z;
  top_margin : option Z;
  bottom_margin : option Z;
  normal_font_name : option str;
  normal_font_size : option Z;
  paragraphs : list Paragraph
}.

(** [Document()]: the default template has an empty body, margins of 1.25 in
    left and right and 1 in top and bottom, and a Normal style that names no
    font and no size. *)
Definition new_document : Document :=
  mkDocument (Some 1143000) (Some 1143000) (Some 914400) (Some 914400) None None [].

(** [paragraph.text] *)
Definition text (p : Paragraph) : str := concat (run_text <$> runs p).

(** [doc.add_paragraph()] followed by the settings made on it. *)
Definition append (doc : Document) (p : Paragraph) : Document :=
  mkDocument (left_margin doc) (right_margin doc) (top_margin doc)
    (bottom_margin doc) (normal_font_name doc) (normal_font_size doc)
    (paragraphs doc ++ [p]).

End Docx.

Import Docx.

(** ** Renderer *)

Definition FONT : str := u "Times New Roman".

(** Line spacing 1.15, in hundredths. *)
Definition LINE_SPACING : Z := 115.

Definition set_doc_defaults (doc : Document) : Document :=
  mkDocument (Some (stored_length (Cm_100 200))) (Some (stored_length (Cm_100 200)))
    (Some (stored_length (Cm_100 200))) (Some (stored_length (Cm_100 200)))
    (Some FONT) (Some (Pt 12)) (paragraphs doc).

(** The keyword-only parameters of [add_para], with their defaults. *)
Record para_options : Type := mkParaOptions {
  align : WD_ALIGN_PARAGRAPH;
  bold : bool;
  size : Z;
  before : Z;
  after : Z;
  first_indent : bool
}.

Definition add_para_defaults : para_options :=
  mkParaOptions JUSTIFY false 12 0 6 true.

(** A keyword argument at a call site. *)
Inductive para_kw : Type :=
| align_ (a : WD_ALIGN_PARAGRAPH)
| bold_ (b : bool)
| size_ (n : Z)
| before_ (n : Z)
| after_ (n : Z)
| first_indent_ (b : bool).

Definition set_para_kw (o : para_options) (kw : para_kw) : para_options :=
  match kw with
  | align_ a => mkParaOptions a (bold o) (size o) (before o) (after o) (first_indent o)
  | bold_ b => mkParaOptions (align o) b (size o) (before o) (after o) (first_indent o)
  | size_ n => mkParaOptions (align o) (bold o) n (before o) (after o) (first_indent o)
  | before_ n => mkParaOptions (align o) (bold o) (size o) n (after o) (first_indent o)
  | after_ n => mkParaOptions (align o) (bold o) (size o) (before o) n (first_indent o)
  | first_indent_ b => mkParaOptions (align o) (bold o) (size o) (before o) (after o) b
  end.

Definition bind_para_kws (kws : list para_kw) : para_options :=
  foldl set_para_kw add_para_defaults kws.

(** The body of [add_para] once its keywords are bound: the paragraph it
    builds, or the ValueError of python-docx for a negative spacing or size or
    for text that is not XML-compatible. *)
Definition para_of (text : str) (o : para_options) : result Paragraph :=
  space_before ← assign_twips_measure (Pt (before o));
  space_after ← assign_twips_measure (Pt (after o));
  content ← run_text_of text;
  font_size ← assign_hps_measure (Pt (size o));
  mret (mkParagraph
          (Some (align o))
          (Some space_before)
          (Some space_after)
          (Some LINE_SPACING)
          (if first_indent o then Some (stored_length (Cm_100 125)) else None)
          []
          [mkRun content (Some (bold o)) (Some FONT) (Some font_size)]).

(** When [add_para] raises, the paragraph it has appended stays in the
    caller's document; the model hands back the exception alone, and nothing
    is stated about the document in that case. *)
Definition add_para (doc : Document) (text : str) (kws : list para_kw)
  : result Document :=
  p ← para_of text (bind_para_kws kws);
  mret (append doc p).

(** The keyword-only parameters of [add_two_col]. *)
Record two_col_options : Type := mkTwoColOptions {
  tc_bold : bool;
  tc_after : Z
}.

Definition add_two_col_defaults : two_col_options := mkTwoColOptions false 3.

Inductive two_col_kw : Type :=
| tc_bold_ (b : bool)
| tc_after_ (n : Z).

Definition set_two_col_kw (o : two_col_options) (kw : two_col_kw) : two_col_options :=
  match kw with
  | tc_bold_ b => mkTwoColOptions b (tc_after o)
  | tc_after_ n => mkTwoColOptions (tc_bold o) n
  end.

Definition bind_two_col_kws (kws : list two_col_kw) : two_col_options :=
  foldl set_two_col_kw add_two_col_defaults kws.

Definition two_col_of (left right : str) (o : two_col_options) : result Paragraph :=
  space_after ← assign_twips_measure (Pt (tc_after o));
  l ← run_text_of left;
  tab ← run_text_of [TAB];
  r ← run_text_of right;
  mret (mkParagraph
          (Some LEFT)
          None
          (Some space_after)
          (Some LINE_SPACING)
          None
          [(stored_length (Cm_100 880), TAB_LEFT)]
          [ mkRun l (Some (tc_bold o)) (Some FONT) (Some (Pt 12));
            mkRun tab None None None;
            mkRun r (Some (tc_bold o)) (Some FONT) (Some (Pt 12)) ]).

Definition add_two_col (doc : Document) (left right : str)
    (kws : list two_col_kw) : result Document :=
  p ← two_col_of left right (bind_two_col_kws kws);
  mret (append doc p).

(** The city/date line, which [build_doc] sets up by hand. *)
Definition city_line_of (text : str) : result Paragraph :=
  content ← run_text_of text;
  mret (mkParagraph None None (Some (Pt 8)) (Some LINE_SPACING) None
          [(stored_length (Cm_100 1650), TAB_RIGHT)]
          [mkRun content None (Some FONT) (Some (Pt 12))]).

Definition add_city_line (doc : Document) (text : str) : result Document :=
  p ← city_line_of text;
  mret (append doc p).

(** [for x in xs: state = body(state, x)], stopping at the first exception. *)
Fixpoint for_each {S A : Type} (body : S -> A -> result S) (s : S) (xs : list A)
  : result S :=
  match xs with
  | [] => Ok s
  | x :: xs' => s' ← body s x; for_each body s' xs'
  end.

(** The fields of [args] that [build_doc] reads; [args.template] is replaced
    by the paragraph texts of the file it names. *)
Record Namespace : Type := mkNamespace {
  ds_no : str;
  agreement_kind : str;
  agreement_no : str;
  agreement_date : str;
  sign_date : str;
  city : str;
  principal_full : str;
  principal_short : str;
  principal_position_intro : str;
  principal_position_sign : str;
  principal_signer_full : str;
  principal_signer_short : str;
  acting_word : str
}.

Definition is_nl_cr (c : Z) : bool := (c =? LF) || (c =? CR).

(** [[x.strip(" -—\t") for x in re.split(r"[\n\r]+", bullets) if x.strip()]] *)
Definition bullet_items (bullets : str) : list str :=
  strip_chars [SPACE; HYPHEN; EM_DASH; TAB]
    <$> filter (fun x => strip x <> []) (re_split_class is_nl_cr bullets).

Definition build_doc (args : Namespace) (reference : list str) : result Document :=
  let template := extract_template_blocks reference in
  let item := getitem u template in

  let doc := new_document in
  let doc := set_doc_defaults doc in

  let title := u "Дополнительное соглашение № " ++ ds_no args in
  let subtitle :=
    u "к " ++ agreement_label_dative (agreement_kind args) ++ u " № "
      ++ agreement_no args ++ u " от " ++ agreement_date args ++ u "." in

  doc ← add_para doc title
               [align_ CENTER; bold_ true; size_ 14; after_ 6; first_indent_ false];
  doc ← add_para doc subtitle
               [align_ CENTER; size_ 12; after_ 10; first_indent_ false];

  signed ← format_ru_date (sign_date args);
  doc ← add_city_line doc (city args ++ [TAB] ++ signed);

  let intro :=
    u "Индивидуальный предприниматель Замятин Николай Григорьевич "
      ++ u "(ОГРНИП 313590433900045), именуемый в дальнейшем «Агент», с одной стороны, "
      ++ u "и " ++ principal_full args ++ u ", в лице " ++ principal_position_intro args
      ++ u " " ++ principal_signer_full args ++ u ", "
      ++ acting_word args ++ u " на основании Устава, именуемое, в дальнейшем «Принципал», "
      ++ u "с другой стороны, совместно именуемые «Стороны», заключили настоящее "
      ++ u "Дополнительное соглашение №" ++ ds_no args
      ++ u " (далее - Соглашение) о нижеследующем:" in
  doc ← add_para doc intro [after_ 8];

  dated ← format_ru_date (agreement_date args);
  let p11 :=
    u "1.1. Настоящее Дополнительное соглашение регулирует порядок расчётов и оказания услуг по "
      ++ u "сопровождению обязательной маркировки рекламы (далее — «Услуги маркировки») в рамках "
      ++ agreement_label_genitive (agreement_kind args) ++ u " №" ++ [NNBSP]
      ++ agreement_no args ++ u " "
      ++ u "от " ++ slice_to_neg 5 dated ++ u " г. (далее — «Договор»)." in

  h1 ← item "h1";
  doc ← add_para doc h1
               [align_ LEFT; bold_ true; before_ 8; after_ 4; first_indent_ false];
  doc ← add_para doc p11 [after_ 4; first_indent_ false];
  p12 ← item "p12";
  doc ← add_para doc p12 [after_ 3; first_indent_ false];

  bullets ← item "bullets";
  let items := bullet_items bullets in
  doc ← for_each (fun doc item =>
                    add_para doc (u "• " ++ item) [after_ 2; first_indent_ false])
                 doc items;

  h2 ← item "h2";
  doc ← add_para doc h2
               [align_ LEFT; bold_ true; before_ 8; after_ 4; first_indent_ false];
  p21 ← item "p21";
  doc ← add_para doc p21 [after_ 3; first_indent_ false];
  p22 ← item "p22";
  doc ← add_para doc p22 [after_ 3; first_indent_ false];
  p23 ← item "p23";
  doc ← add_para doc p23 [after_ 6; first_indent_ false];

  h3 ← item "h3";
  doc ← add_para doc h3
               [align_ LEFT; bold_ true; before_ 8; after_ 4; first_indent_ false];
  p31 ← item "p31";
  doc ← add_para doc p31 [after_ 3; first_indent_ false];
  p32 ← item "p32";
  doc ← add_para doc p32 [after_ 6; first_indent_ false];

  h4 ← item "h4";
  doc ← add_para doc h4
               [align_ LEFT; bold_ true; before_ 8; after_ 4; first_indent_ false];
  p41 ← item "p41";
  doc ← add_para doc p41 [after_ 3; first_indent_ false];
  p42 ← item "p42";
  doc ← add_para doc p42 [after_ 3; first_indent_ false];
  p43 ← item "p43";
  doc ← add_para doc p43 [after_ 8; first_indent_ false];

  h5 ← item "h5";
  doc ← add_para doc h5
               [align_ LEFT; bold_ true; before_ 8; after_ 4; first_indent_ false];
  doc ← add_two_col doc (u "Принципал") (u "Агент") [tc_bold_ true; tc_after_ 4];
  doc ← add_two_col doc (principal_short args) (u "ИП Замятин Николай Григорьевич")
               [tc_after_ 2];
  doc ← add_two_col doc (principal_position_sign args) (u "") [tc_after_ 8];
  doc ← add_two_col doc (u "____________ М.П.") (u "____________ М.П.") [tc_after_ 2];
  doc ← add_two_col doc (principal_signer_short args) (u "Замятин Н.Г.") [tc_after_ 0];

  mret doc.

(** ** Vocabulary of the statements *)

(** The keys of [MONTHS]. *)
Definition month_codes : list str := MONTHS_items.*1.

(** A call that ends in an exception. *)
Definition raises {A} (r : result A) : Prop := exists e, r = Raise e.

(** A date [D.M.Y]: day and year without a dot, the month a key of [MONTHS]. *)
Definition valid_date (s : str) : Prop :=
  exists D M Y,
    s = D ++ [DOT] ++ M ++ [DOT] ++ Y
    /\ (DOT ∉ D) /\ (M ∈ month_codes) /\ (DOT ∉ Y).

(** The clause keys with the paragraph index each one is read from and the
    text it falls back to. *)
Definition clause_slots : list (string * nat * str) :=
  [ ("h1", 6%nat, Fallback.h1);
    ("p12", 8%nat, Fallback.p12);
    ("bullets", 9%nat, Fallback.bullets);
    ("h2", 10%nat, Fallback.h2);
    ("p21", 11%nat, Fallback.p21);
    ("p22", 12%nat, Fallback.p22);
    ("p23", 13%nat, Fallback.p23);
    ("h3", 14%nat, Fallback.h3);
    ("p31", 15%nat, Fallback.p31);
    ("p32", 16%nat, Fallback.p32);
    ("h4", 17%nat, Fallback.h4);
    ("p41", 18%nat, Fallback.p41);
    ("p42", 19%nat, Fallback.p42);
    ("p43", 20%nat, Fallback.p43);
    ("h5", 21%nat, Fallback.h5) ].

Definition clause_keys : list string := clause_slots.*1.*1.

(** Cleaning as the specification words it: U+2028 becomes a newline, U+00A0
    a space, and whitespace is trimmed at both ends. *)
Definition normalize_code_point (c : Z) : Z :=
  if c =? LINE_SEP then LF else if c =? NBSP then SPACE else c.

Definition is_cleaned_text (raw cleaned : str) : Prop :=
  exists lead trail,
    normalize_code_point <$> raw = lead ++ cleaned ++ trail
    /\ Forall (fun c => isspace c = true) lead
    /\ Forall (fun c => isspace c = true) trail
    /\ (forall c, head cleaned = Some c -> isspace c = false)
    /\ (forall c, last cleaned = Some c -> isspace c = false).

(** The dictionary entry of one slot. *)
Definition slot_entry (reference : list str) (slot : string * nat * str) : string * str :=
  (slot.1.1, default slot.2 (clean <$> reference !! slot.1.2)).

(** The text the extractor binds to a key (empty for a key it does not bind). *)
Definition clause (reference : list str) (k : string) : str :=
  default [] (extract_template_blocks reference !! k).

(** The texts of a document's paragraphs, in order. *)
Definition texts (doc : Document) : list str := text <$> paragraphs doc.

(** The sentence of paragraph 1.1 for an agreement kind, number and date phrase. *)
Definition p11_text (kind no date_phrase : str) : str :=
  u "1.1. Настоящее Дополнительное соглашение регулирует порядок расчётов и оказания услуг по "
    ++ u "сопровождению обязательной маркировки рекламы (далее — «Услуги маркировки») в рамках "
    ++ agreement_label_genitive kind ++ u " №" ++ [NNBSP]
    ++ no ++ u " "
    ++ u "от " ++ date_phrase ++ u " г. (далее — «Договор»).".

(** A bullet item as the renderer should leave it: no marker or whitespace in
    front, no whitespace behind. *)
Definition tidy_item (item : str) : Prop :=
  (forall c, head item = Some c ->
             (c ∉ [SPACE; HYPHEN; EM_DASH; TAB]) /\ isspace c = false)
  /\ (forall c, last item = Some c -> isspace c = false).

(** Sample inputs. *)
Definition sample_args : Namespace :=
  mkNamespace (u "7") (u "agent") (u "AG-092023-1880") (u "15.03.2024")
    (u "01.12.2025") (u "г. Пермь") (u "ООО «Ромашка»") (u "ООО «Ромашка»")
    (u "Генерального директора") (u "Генеральный директор")
    (u "Иванова Ивана Ивановича") (u "Иванов И.И.") (u "действующего").

Definition sample_reference (bullets : str) : list str :=
  replicate 9 (u "x") ++ [bullets] ++ replicate 12 (u "x").

Definition four_bullets : str :=
  u "— a" ++ [LF] ++ u "— b" ++ [LF] ++ u "— c" ++ [LF] ++ u "— d".



(** The document-wide settings. *)
Definition page_setup (doc : Document)
  : option Z * option Z * option Z * option Z * option str * option Z :=
  (left_margin doc, right_margin doc, top_margin doc, bottom_margin doc,
   normal_font_name doc, normal_font_size doc).

(** Alignment of a paragraph with the bold flag and font size of its first run. *)
Definition style (p : Paragraph) : option WD_ALIGN_PARAGRAPH * option bool * option Z :=
  (alignment p, head (runs p) ≫= run_bold, head (runs p) ≫= run_font_size).

(** What [build_doc] returns on the sample inputs. *)
Definition sample_doc : Document :=
  match build_doc sample_args (sample_reference four_bullets) with
  | Ok doc => doc
  | Raise _ => new_document
  end.

(** A paragraph in the house style: line spacing 1.15, and every run either
    names Times New Roman or is the bare tab separator. *)
Definition uniform_paragraph (p : Paragraph) : Prop :=
  line_spacing p = Some LINE_SPACING
  /\ Forall (fun r =>
               run_font_name r = Some (u "Times New Roman")
               \/ (run_text r = [TAB] /\ run_font_name r = None
                   /\ run_font_size r = None /\ run_bold r = None))
            (runs p).

(** The keyword sets [build_doc] uses for headings and for body paragraphs. *)
Definition heading_kws : list para_kw :=
  [align_ LEFT; bold_ true; before_ 8; after_ 4; first_indent_ false].
Definition body_kws (after : Z) : list para_kw :=
  [after_ after; first_indent_ false].

(** XML-compatibility as a property, and the parameter texts that reach the
    document. *)
Definition compatible (s : str) : Prop := xml_compatible s = true.


(** The texts [build_doc] composes from the parameters. *)
Definition title_text (args : Namespace) : str :=
  u "Дополнительное соглашение № " ++ ds_no args.

Definition subtitle_text (args : Namespace) : str :=
  u "к " ++ agreement_label_dative (agreement_kind args) ++ u " № "
    ++ agreement_no args ++ u " от " ++ agreement_date args ++ u ".".

Definition intro_text (args : Namespace) : str :=
  u "Индивидуальный предприниматель Замятин Николай Григорьевич "
    ++ u "(ОГРНИП 313590433900045), именуемый в дальнейшем «Агент», с одной стороны, "
    ++ u "и " ++ principal_full args ++ u ", в лице " ++ principal_position_intro args
    ++ u " " ++ principal_signer_full args ++ u ", "
    ++ acting_word args ++ u " на основании Устава, именуемое, в дальнейшем «Принципал», "
    ++ u "с другой стороны, совместно именуемые «Стороны», заключили настоящее "
    ++ u "Дополнительное соглашение №" ++ ds_no args
    ++ u " (далее - Соглашение) о нижеследующем:".

(** One paragraph construction of the renderer, as data. *)
Inductive step : Type :=
| Para (text : str) (kws : list para_kw)
| TwoCol (left right : str) (kws : list two_col_kw)
| CityLine (text : str).

Definition run_step (doc : Document) (s : step) : result Document :=
  match s with
  | Para t kws => add_para doc t kws
  | TwoCol l r kws => add_two_col doc l r kws
  | CityLine t => add_city_line doc t
  end.

Definition run_steps (doc : Document) (ss : list step) : result Document :=
  for_each run_step doc ss.

(** The text handed to a step, whether the step is accepted, and the paragraph
    it then appends. *)
Definition step_text (s : step) : str :=
  match s with
  | Para t _ => t
  | TwoCol l r _ => l ++ [TAB] ++ r
  | CityLine t => t
  end.

Definition step_valid (s : step) : bool :=
  match s with
  | Para t kws =>
      let o := bind_para_kws kws in
      unsigned_long (Pt (before o)) && unsigned_long (Pt (after o))
      && xml_compatible t && unsigned_long (Pt (size o))
  | TwoCol l r kws =>
      unsigned_long (Pt (tc_after (bind_two_col_kws kws)))
      && xml_compatible l && xml_compatible r
  | CityLine t => xml_compatible t
  end.

Definition step_paragraph (s : step) : Paragraph :=
  match s with
  | Para t kws =>
      let o := bind_para_kws kws in
      mkParagraph (Some (align o)) (Some (Pt (before o))) (Some (Pt (after o)))
        (Some LINE_SPACING)
        (if first_indent o then Some (Twips 709) else None)
        []
        [mkRun (read_back t) (Some (bold o)) (Some FONT) (Some (Pt (size o)))]
  | TwoCol l r kws =>
      let o := bind_two_col_kws kws in
      mkParagraph (Some LEFT) None (Some (Pt (tc_after o))) (Some LINE_SPACING) None
        [(Twips 4989, TAB_LEFT)]
        [ mkRun (read_back l) (Some (tc_bold o)) (Some FONT) (Some (Pt 12));
          mkRun [TAB] None None None;
          mkRun (read_back r) (Some (tc_bold o)) (Some FONT) (Some (Pt 12)) ]
  | CityLine t =>
      mkParagraph None None (Some (Pt 8)) (Some LINE_SPACING) None
        [(Twips 9354, TAB_RIGHT)]
        [mkRun (read_back t) None (Some FONT) (Some (Pt 12))]
  end.

(** A document with further paragraphs appended. *)
Definition extend (doc : Document) (ps : list Paragraph) : Document :=
  mkDocument (left_margin doc) (right_margin doc) (top_margin doc)
    (bottom_margin doc) (normal_font_name doc) (normal_font_size doc)
    (paragraphs doc ++ ps).

(** The steps of [build_doc]: before the signing date is phrased, between the
    two dates, and after the agreement date is phrased. *)
Definition title_steps (args : Namespace) : list step :=
  [ Para (title_text args)
      [align_ CENTER; bold_ true; size_ 14; after_ 6; first_indent_ false];
    Para (subtitle_text args)
      [align_ CENTER; size_ 12; after_ 10; first_indent_ false] ].

Definition intro_steps (args : Namespace) (signed : str) : list step :=
  [ CityLine (city args ++ [TAB] ++ signed);
    Para (intro_text args) [after_ 8] ].

Definition signature_steps (args : Namespace) : list step :=
  [ TwoCol (u "Принципал") (u "Агент") [tc_bold_ true; tc_after_ 4];
    TwoCol (principal_short args) (u "ИП Замятин Николай Григорьевич") [tc_after_ 2];
    TwoCol (principal_position_sign args) (u "") [tc_after_ 8];
    TwoCol (u "____________ М.П.") (u "____________ М.П.") [tc_after_ 2];
    TwoCol (principal_signer_short args) (u "Замятин Н.Г.") [tc_after_ 0] ].

Definition body_steps (args : Namespace) (reference : list str) (dated : str)
  : list step :=
  [ Para (clause reference "h1") heading_kws;
    Para (p11_text (agreement_kind args) (agreement_no args) (slice_to_neg 5 dated))
      (body_kws 4);
    Para (clause reference "p12") (body_kws 3) ]
  ++ ((fun item => Para (u "• " ++ item) (body_kws 2))
        <$> bullet_items (clause reference "bullets"))
  ++ [ Para (clause reference "h2") heading_kws;
       Para (clause reference "p21") (body_kws 3);
       Para (clause reference "p22") (body_kws 3);
       Para (clause reference "p23") (body_kws 6);
       Para (clause reference "h3") heading_kws;
       Para (clause reference "p31") (body_kws 3);
       Para (clause reference "p32") (body_kws 6);
       Para (clause reference "h4") heading_kws;
       Para (clause reference "p41") (body_kws 3);
       Para (clause reference "p42") (body_kws 3);
       Para (clause reference "p43") (body_kws 8);
       Para (clause reference "h5") heading_kws ]
  ++ signature_steps args.

Definition steps (args : Namespace) (reference : list str) (signed dated : str)
  : list step :=
  title_steps args ++ intro_steps args signed ++ body_steps args reference dated.






(** The texts of the five signature rows. *)
Definition signature_rows (args : Namespace) : list str :=
  [ u "Принципал" ++ [TAB] ++ u "Агент";
    principal_short args ++ [TAB] ++ u "ИП Замятин Николай Григорьевич";
    principal_position_sign args ++ [TAB] ++ u "";
    u "____________ М.П." ++ [TAB] ++ u "____________ М.П.";
    principal_signer_short args ++ [TAB] ++ u "Замятин Н.Г." ].

(** The texts handed to the paragraph constructors, in order. *)
Definition handed_texts (args : Namespace) (reference : list str) (signed dated : str)
  : list str :=
  [ title_text args;
    subtitle_text args;
    city args ++ [TAB] ++ signed;
    intro_text args;
    clause reference "h1";
    p11_text (agreement_kind args) (agreement_no args) (slice_to_neg 5 dated);
    clause reference "p12" ]
  ++ ((fun item => u "• " ++ item) <$> bullet_items (clause reference "bullets"))
  ++ [ clause reference "h2"; clause reference "p21"; clause reference "p22";
       clause reference "p23";
       clause reference "h3"; clause reference "p31"; clause reference "p32";
       clause reference "h4"; clause reference "p41"; clause reference "p42";
       clause reference "p43";
       clause reference "h5" ]
  ++ signature_rows args.
(** * Properties *)

(** ** Strings *)

Section split_facts.
Variable sep : Z.

Lemma split_nonempty s : split sep s <> [].
Proof.
  destruct s as [|c s]; simpl; [discriminate|].
  destruct (c =? sep); [discriminate|].
  destruct (split sep s); discriminate.
Qed.

Lemma split_without_sep s : sep ∉ s -> split sep s = [s].
Proof.
  induction s as [|c s IH]; intros Hs; simpl; [reflexivity|].
  apply not_elem_of_cons in Hs as [Hc Hs].
  destruct (Z.eqb_spec c sep) as [->|_]; [contradiction|].
  rewrite (IH Hs). reflexivity.
Qed.

Lemma split_at_first_sep a b :
  sep ∉ a -> split sep (a ++ sep :: b) = a :: split sep b.
Proof.
  induction a as [|c a IH]; intros Ha; simpl.
  - rewrite Z.eqb_refl. reflexivity.
  - apply not_elem_of_cons in Ha as [Hc Ha].
    destruct (Z.eqb_spec c sep) as [->|_]; [contradiction|].
    rewrite (IH Ha). reflexivity.
Qed.

(** One piece more than there are separators. *)
Lemma split_length s :
  length (split sep s) = S (count_occ Z.eq_dec s sep).
Proof.
  induction s as [|c s IH]; simpl; [reflexivity|].
  destruct (Z.eqb_spec c sep) as [->|Hne].
  - destruct (Z.eq_dec sep sep) as [_|?]; [|contradiction].
    simpl. rewrite IH. reflexivity.
  - destruct (Z.eq_dec c sep) as [?|_]; [contradiction|].
    pose proof (split_nonempty s) as Hs.
    destruct (split sep s) as [|piece rest]; [contradiction|].
    exact IH.
Qed.

Lemma split_three D M Y :
  sep ∉ D -> sep ∉ M -> sep ∉ Y ->
  split sep (D ++ [sep] ++ M ++ [sep] ++ Y) = [D; M; Y].
Proof.
  intros HD HM HY. simpl.
  rewrite (split_at_first_sep D _ HD), (split_at_first_sep M _ HM).
  rewrite (split_without_sep Y HY). reflexivity.
Qed.

Lemma split_more_than_three D M Y :
  ~ ((sep ∉ D) /\ (sep ∉ M) /\ (sep ∉ Y)) ->
  (3 < length (split sep (D ++ [sep] ++ M ++ [sep] ++ Y)))%nat.
Proof.
  intros Hsome. rewrite split_length. simpl.
  rewrite !count_occ_app. simpl.
  destruct (Z.eq_dec sep sep) as [_|?]; [|contradiction].
  rewrite count_occ_app. simpl.
  destruct (Z.eq_dec sep sep) as [_|?]; [|contradiction].
  assert (count_occ Z.eq_dec D sep = 0 -> sep ∉ D)%nat as HD
    by (intros H0 Hin; apply list_elem_of_In, (count_occ_In Z.eq_dec) in Hin; lia).
  assert (count_occ Z.eq_dec M sep = 0 -> sep ∉ M)%nat as HM
    by (intros H0 Hin; apply list_elem_of_In, (count_occ_In Z.eq_dec) in Hin; lia).
  assert (count_occ Z.eq_dec Y sep = 0 -> sep ∉ Y)%nat as HY
    by (intros H0 Hin; apply list_elem_of_In, (count_occ_In Z.eq_dec) in Hin; lia).
  destruct (count_occ Z.eq_dec D sep) eqn:ED;
    destruct (count_occ Z.eq_dec M sep) eqn:EM;
    destruct (count_occ Z.eq_dec Y sep) eqn:EY; try lia.
  exfalso. apply Hsome. auto.
Qed.

End split_facts.

Section replace_facts.

(** Replacing one code point by another is a pointwise substitution. *)
Lemma replace_one_code_point a b s :
  replace [a] [b] s = (fun c => if c =? a then b else c) <$> s.
Proof.
  unfold replace.
  induction s as [|c s IH]; simpl; [reflexivity|].
  rewrite Z.eqb_sym, andb_true_r.
  destruct (c =? a); simpl; rewrite IH; reflexivity.
Qed.

End replace_facts.

Section strip_facts.
Variable f : Z -> bool.

Lemma dropwhile_decompose s :
  exists lead, s = lead ++ dropwhile f s /\ Forall (fun c => f c = true) lead.
Proof.
  induction s as [|c s (lead & Heq & Hlead)]; simpl.
  - exists []. split; [reflexivity | constructor].
  - destruct (f c) eqn:Hc.
    + exists (c :: lead). split; [simpl; congruence | constructor; assumption].
    + exists []. split; [reflexivity | constructor].
Qed.

Lemma dropwhile_head s c : head (dropwhile f s) = Some c -> f c = false.
Proof.
  induction s as [|d s IH]; simpl; [discriminate|].
  destruct (f d) eqn:Hd; [exact IH|].
  simpl. intros [= <-]. exact Hd.
Qed.

Lemma rstrip_decompose s :
  exists trail, s = rstrip_by f s ++ trail /\ Forall (fun c => f c = true) trail.
Proof.
  unfold rstrip_by.
  destruct (dropwhile_decompose (reverse s)) as (lead & Heq & Hlead).
  exists (reverse lead). split.
  - rewrite <- reverse_app, <- Heq, reverse_involutive. reflexivity.
  - apply Forall_reverse. exact Hlead.
Qed.

Lemma rstrip_last s c : last (rstrip_by f s) = Some c -> f c = false.
Proof.
  unfold rstrip_by. rewrite last_reverse. apply dropwhile_head.
Qed.

(** Both [s.strip()] and [s.strip(chars)]: what is cut off on either side
    consists of stripped code points only, and what is left neither starts nor
    ends with one. *)
Lemma strip_by_spec s :
  let r := rstrip_by f (lstrip_by f s) in
  exists lead trail,
    s = lead ++ r ++ trail
    /\ Forall (fun c => f c = true) lead
    /\ Forall (fun c => f c = true) trail
    /\ (forall c, head r = Some c -> f c = false)
    /\ (forall c, last r = Some c -> f c = false).
Proof.
  intros r. subst r. unfold lstrip_by.
  destruct (dropwhile_decompose s) as (lead & Hs & Hlead).
  destruct (rstrip_decompose (dropwhile f s)) as (trail & Hd & Htrail).
  exists lead, trail. repeat split; try assumption.
  - rewrite <- Hd. exact Hs.
  - intros c Hc. apply (dropwhile_head s).
    rewrite Hd. destruct (rstrip_by f (dropwhile f s)); [discriminate | exact Hc].
  - apply rstrip_last.
Qed.

End strip_facts.

(** ** Localization helpers *)

Lemma month_code_facts M name :
  (M, name) ∈ MONTHS_items -> (DOT ∉ M) /\ MONTHS !! M = Some name.
Proof.
  unfold MONTHS_items. intros HM.
  repeat (apply elem_of_cons in HM as [[= -> ->]|HM];
          [split; [compute_done | vm_compute; reflexivity]|]).
  apply elem_of_nil in HM. contradiction.
Qed.

Lemma month_codes_items M :
  M ∈ month_codes -> exists name, (M, name) ∈ MONTHS_items.
Proof.
  unfold month_codes. intros HM.
  apply list_elem_of_fmap in HM as ([M' name] & -> & Hin).
  exists name. exact Hin.
Qed.

Lemma unknown_month M : M ∉ month_codes -> MONTHS !! M = None.
Proof. intros HM. apply not_elem_of_list_to_map_1. exact HM. Qed.

Lemma format_ru_date_ok D M Y name :
  DOT ∉ D -> DOT ∉ Y -> (M, name) ∈ MONTHS_items ->
  format_ru_date (D ++ [DOT] ++ M ++ [DOT] ++ Y)
  = Ok (u "«" ++ D ++ u "» " ++ name ++ u " " ++ Y ++ u " года").
Proof.
  intros HD HY HM.
  destruct (month_code_facts M name HM) as [HMdot HMname].
  unfold format_ru_date.
  rewrite (split_three DOT D M Y HD HMdot HY).
  unfold getitem. rewrite HMname. reflexivity.
Qed.

Lemma format_ru_date_valid s :
  valid_date s -> exists phrase, format_ru_date s = Ok phrase.
Proof.
  intros (D & M & Y & -> & HD & HM & HY).
  destruct (month_codes_items M HM) as [name Hname].
  eexists. apply (format_ru_date_ok D M Y name HD HY Hname).
Qed.

Lemma format_ru_date_bad_month D M Y :
  M ∉ month_codes ->
  format_ru_date (D ++ [DOT] ++ M ++ [DOT] ++ Y)
  = Raise (if decide ((DOT ∉ D) /\ (DOT ∉ M) /\ (DOT ∉ Y))
           then KeyError M else ValueError).
Proof.
  intros HM. unfold format_ru_date.
  destruct (decide ((DOT ∉ D) /\ (DOT ∉ M) /\ (DOT ∉ Y))) as [(HD & HMd & HY)|Hdots].
  - rewrite (split_three DOT D M Y HD HMd HY).
    unfold getitem. rewrite (unknown_month M HM). reflexivity.
  - pose proof (split_more_than_three DOT D M Y Hdots) as Hlen.
    destruct (split DOT (D ++ [DOT] ++ M ++ [DOT] ++ Y)) as [|a [|b [|c [|d rest]]]];
      simpl in Hlen; try lia; reflexivity.
Qed.

(** ** Template extractor *)

Lemma clean_is_cleaned_text raw : is_cleaned_text raw (clean raw).
Proof.
  unfold clean, strip, is_cleaned_text.
  rewrite !replace_one_code_point, <- list_fmap_compose.
  assert (((fun c => if c =? NBSP then SPACE else c)
             ∘ (fun c => if c =? LINE_SEP then LF else c)) <$> raw
          = normalize_code_point <$> raw) as ->.
  { apply list_fmap_ext. intros _ c _. unfold normalize_code_point, compose.
    destruct (Z.eqb_spec c LINE_SEP) as [->|_]; reflexivity. }
  apply strip_by_spec.
Qed.

Lemma guarded_item (p : list str) (i : nat) (fb : str) :
  (if (i <? length p)%nat then p !!! i else fb) = default fb (p !! i).
Proof.
  destruct (Nat.ltb_spec i (length p)) as [Hlt|Hge].
  - apply lookup_lt_is_Some in Hlt as [x Hx].
    rewrite (list_lookup_total_correct _ _ _ Hx), Hx. reflexivity.
  - rewrite (lookup_ge_None_2 _ _ Hge). reflexivity.
Qed.

Lemma extract_template_blocks_slots reference :
  extract_template_blocks reference
  = list_to_map (slot_entry reference <$> clause_slots).
Proof.
  unfold extract_template_blocks.
  rewrite !guarded_item.
  rewrite !list_lookup_fmap.
  unfold clause_slots. rewrite !fmap_cons, fmap_nil.
  unfold slot_entry. cbn [fst snd].
  reflexivity.
Qed.

Lemma extract_lookup reference k i fb :
  (k, i, fb) ∈ clause_slots ->
  extract_template_blocks reference !! k
  = Some (default fb (clean <$> reference !! i)).
Proof.
  intros Hin. rewrite extract_template_blocks_slots.
  apply elem_of_list_to_map_1.
  - rewrite <- list_fmap_compose.
    change (NoDup clause_keys). unfold clause_keys. compute_done.
  - apply (list_elem_of_fmap_2 (slot_entry reference) _ _ Hin).
Qed.

Lemma extract_dom reference :
  dom (extract_template_blocks reference) = list_to_set clause_keys.
Proof.
  rewrite extract_template_blocks_slots, dom_list_to_map_L.
  rewrite <- list_fmap_compose. reflexivity.
Qed.

Lemma clause_slot_bounds k i fb :
  (k, i, fb) ∈ clause_slots -> (6 <= i <= 21)%nat /\ fb <> [].
Proof.
  unfold clause_slots. intros Hin.
  repeat (apply elem_of_cons in Hin as [[= -> -> ->]|Hin];
          [split; [lia | vm_compute; discriminate]|]).
  apply elem_of_nil in Hin. contradiction.
Qed.


(** ** Further facts on cleaning, splitting and the date phraser *)

Lemma clean_normalize raw : clean raw = strip (normalize_code_point <$> raw).
Proof.
  unfold clean.
  rewrite !replace_one_code_point, <- list_fmap_compose.
  f_equal. apply list_fmap_ext. intros _ c _.
  unfold normalize_code_point, compose.
  destruct (Z.eqb_spec c LINE_SEP) as [->|_]; reflexivity.
Qed.

Lemma strip_by_subset (f : Z -> bool) s c :
  c ∈ rstrip_by f (lstrip_by f s) -> c ∈ s.
Proof.
  destruct (strip_by_spec f s) as (lead & trail & Hs & _).
  intros Hc. rewrite Hs. rewrite !elem_of_app. right. left. exact Hc.
Qed.

Lemma split_head_inv sep s a rest :
  split sep s = a :: rest ->
  (sep ∉ a)
  /\ ((rest = [] /\ s = a)
      \/ (exists s', s = a ++ sep :: s' /\ split sep s' = rest)).
Proof.
  revert a rest. induction s as [|c s IH]; intros a rest; simpl.
  - intros [= <- <-]. split; [apply not_elem_of_nil | left; split; reflexivity].
  - destruct (Z.eqb_spec c sep) as [->|Hne].
    + intros [= <- <-]. split; [apply not_elem_of_nil|].
      right. exists s. split; reflexivity.
    + destruct (split sep s) as [|piece pieces] eqn:Hs;
        [exfalso; exact (split_nonempty sep s Hs)|].
      intros [= <- <-].
      destruct (IH piece pieces eq_refl) as [Hpiece Hcases].
      split.
      * apply not_elem_of_cons. split; [congruence | exact Hpiece].
      * destruct Hcases as [[-> ->]|(s' & -> & Hs')].
        -- left. split; reflexivity.
        -- right. exists s'. split; [reflexivity | exact Hs'].
Qed.

Lemma split_three_inv sep s D M Y :
  split sep s = [D; M; Y] ->
  s = D ++ [sep] ++ M ++ [sep] ++ Y /\ (sep ∉ D) /\ (sep ∉ M) /\ (sep ∉ Y).
Proof.
  intros Hs.
  destruct (split_head_inv sep s D [M; Y] Hs) as [HD [[[=] _]|(s1 & -> & Hs1)]].
  destruct (split_head_inv sep s1 M [Y] Hs1) as [HM [[[=] _]|(s2 & -> & Hs2)]].
  destruct (split_head_inv sep s2 Y [] Hs2) as [HY [[_ ->]|(s3 & _ & Hs3)]].
  - repeat split; assumption.
  - exfalso. exact (split_nonempty sep s3 Hs3).
Qed.

Lemma months_lookup_inv M name :
  MONTHS !! M = Some name -> (M, name) ∈ MONTHS_items.
Proof. apply elem_of_list_to_map_2. Qed.

Lemma format_ru_date_ok_inv s phrase :
  format_ru_date s = Ok phrase ->
  exists D M Y name,
    s = D ++ [DOT] ++ M ++ [DOT] ++ Y
    /\ (DOT ∉ D) /\ (DOT ∉ Y) /\ (M, name) ∈ MONTHS_items
    /\ phrase = u "«" ++ D ++ u "» " ++ name ++ u " " ++ Y ++ u " года".
Proof.
  unfold format_ru_date.
  destruct (split DOT s) as [|D [|M [|Y [|extra rest]]]] eqn:Hs; try discriminate.
  unfold getitem. destruct (MONTHS !! M) as [name|] eqn:HM; [|discriminate].
  intros [= <-].
  destruct (split_three_inv DOT s D M Y Hs) as (-> & HD & _ & HY).
  exists D, M, Y, name. repeat split; try assumption.
  apply months_lookup_inv. exact HM.
Qed.

Lemma format_ru_date_ok_valid s phrase :
  format_ru_date s = Ok phrase -> valid_date s.
Proof.
  intros Hok.
  destruct (format_ru_date_ok_inv s phrase Hok) as (D & M & Y & name & -> & HD & HY & HM & _).
  exists D, M, Y. repeat split; try assumption.
  unfold month_codes. apply list_elem_of_fmap. exists (M, name). split; [reflexivity | exact HM].
Qed.

Lemma re_split_runs_pieces (P : Z -> Prop) cls in_run s :
  Forall P s ->
  Forall (Forall (fun c => P c /\ cls c = false)) (re_split_runs cls in_run s).
Proof.
  intros Hs. revert in_run.
  induction Hs as [|c s Hc Hs IH]; intros in_run; simpl.
  - repeat constructor.
  - destruct (cls c) eqn:Hcls.
    + destruct in_run; [apply IH|]. constructor; [constructor | apply IH].
    + specialize (IH false).
      destruct (re_split_runs cls false s) as [|piece rest]; [repeat constructor; auto|].
      inversion IH as [|? ? Hpiece Hrest]; subst.
      constructor; [constructor; auto | exact Hrest].
Qed.

(** ** Renderer *)

Lemma result_bind_Ok {A B} (f : A -> result B) (a : A) : (Ok a ≫= f) = f a.
Proof. reflexivity. Qed.

Lemma result_bind_ret {A} (r : result A) : (r ≫= Ok) = r.
Proof. destruct r; reflexivity. Qed.

Lemma result_bind_ext {A B} (r : result A) (f g : A -> result B) :
  (forall a, f a = g a) -> (r ≫= f) = (r ≫= g).
Proof. intros Hfg. destruct r as [a|e]; [apply Hfg | reflexivity]. Qed.

Lemma getitem_clause reference k :
  k ∈ clause_keys -> getitem u (extract_template_blocks reference) k = Ok (clause reference k).
Proof.
  unfold clause_keys. intros Hk.
  apply list_elem_of_fmap in Hk as ([k' i] & -> & Hk).
  apply list_elem_of_fmap in Hk as ([[k'' i'] fb] & [= -> ->] & Hk).
  unfold getitem, clause. cbn [fst snd].
  rewrite (extract_lookup reference _ _ _ Hk). reflexivity.
Qed.

Ltac clause_key := unfold clause_keys; compute_done.

(** *** Stored lengths *)

Lemma stored_length_Pt n : stored_length (Pt n) = Pt n.
Proof.
  unfold stored_length, twips, Twips, Pt.
  replace (2 * (n * 12700) + 635) with (20 * n * 1270 + 635) by lia.
  rewrite Z.div_add_l by lia. change (635 / 1270) with 0. lia.
Qed.

Lemma half_points_Pt n : Pt n / 6350 * 6350 = Pt n.
Proof.
  unfold Pt. replace (n * 12700) with (n * 2 * 6350) by lia.
  rewrite Z.div_mul by lia. reflexivity.
Qed.

(** *** Texts *)

Lemma xml_compatible_app a b :
  xml_compatible (a ++ b) = xml_compatible a && xml_compatible b.
Proof. apply forallb_app. Qed.



Lemma read_back_app a b : read_back (a ++ b) = read_back a ++ read_back b.
Proof. apply fmap_app. Qed.


(** *** One step *)

Lemma run_step_spec doc s :
  run_step doc s
  = if step_valid s then Ok (append doc (step_paragraph s)) else Raise ValueError.
Proof.
  destruct s as [t kws|l r kws|t]; cbn [run_step step_valid step_paragraph].
  - unfold add_para, para_of, assign_twips_measure, assign_hps_measure, run_text_of.
    destruct (unsigned_long (Pt (before (bind_para_kws kws)))); [|reflexivity].
    destruct (unsigned_long (Pt (after (bind_para_kws kws)))); [|reflexivity].
    destruct (xml_compatible t); [|reflexivity].
    destruct (unsigned_long (Pt (size (bind_para_kws kws)))); [|reflexivity].
    cbn [andb mbind result_bind mret result_ret].
    rewrite !stored_length_Pt, half_points_Pt. reflexivity.
  - unfold add_two_col, two_col_of, assign_twips_measure, run_text_of.
    destruct (unsigned_long (Pt (tc_after (bind_two_col_kws kws)))); [|reflexivity].
    destruct (xml_compatible l); [|reflexivity].
    destruct (xml_compatible r); [|reflexivity].
    cbn [andb mbind result_bind mret result_ret].
    rewrite stored_length_Pt. reflexivity.
  - unfold add_city_line, city_line_of, run_text_of.
    destruct (xml_compatible t); reflexivity.
Qed.

Lemma extend_append doc p ps : extend (append doc p) ps = extend doc (p :: ps).
Proof. unfold extend, append. cbn. rewrite <- app_assoc. reflexivity. Qed.

Lemma extend_nil doc : extend doc [] = doc.
Proof. destruct doc. unfold extend. cbn. rewrite app_nil_r. reflexivity. Qed.

Lemma extend_extend doc ps qs : extend (extend doc ps) qs = extend doc (ps ++ qs).
Proof. unfold extend. cbn. rewrite <- app_assoc. reflexivity. Qed.

Lemma run_steps_spec doc ss :
  run_steps doc ss
  = if forallb step_valid ss
    then Ok (extend doc (step_paragraph <$> ss))
    else Raise ValueError.
Proof.
  unfold run_steps. revert doc.
  induction ss as [|s ss IH]; intros doc; cbn [for_each forallb fmap list_fmap].
  - rewrite extend_nil. reflexivity.
  - rewrite run_step_spec. destruct (step_valid s); [|reflexivity].
    rewrite result_bind_Ok, IH. cbn [andb].
    destruct (forallb step_valid ss); [|reflexivity].
    rewrite extend_append. reflexivity.
Qed.

(** *** [build_doc] as three runs of steps around the two dates *)

Lemma steps_cons (K : Document -> result Document) doc s rest F :
  (forall doc', F doc' = (run_steps doc' rest ≫= K)) ->
  (run_step doc s ≫= F) = (run_steps doc (s :: rest) ≫= K).
Proof.
  intros HF. unfold run_steps. cbn [for_each].
  destruct (run_step doc s) as [doc'|e]; [|reflexivity].
  rewrite !result_bind_Ok. apply HF.
Qed.

Lemma steps_para (K : Document -> result Document) doc t kws rest F :
  (forall doc', F doc' = (run_steps doc' rest ≫= K)) ->
  (add_para doc t kws ≫= F) = (run_steps doc (Para t kws :: rest) ≫= K).
Proof. apply (steps_cons K doc (Para t kws)). Qed.

Lemma steps_two_col (K : Document -> result Document) doc l r kws rest F :
  (forall doc', F doc' = (run_steps doc' rest ≫= K)) ->
  (add_two_col doc l r kws ≫= F) = (run_steps doc (TwoCol l r kws :: rest) ≫= K).
Proof. apply (steps_cons K doc (TwoCol l r kws)). Qed.

Lemma steps_city_line (K : Document -> result Document) doc t rest F :
  (forall doc', F doc' = (run_steps doc' rest ≫= K)) ->
  (add_city_line doc t ≫= F) = (run_steps doc (CityLine t :: rest) ≫= K).
Proof. apply (steps_cons K doc (CityLine t)). Qed.

Lemma steps_for_each (K : Document -> result Document) doc (g : str -> str) kws items rest F :
  (forall doc', F doc' = (run_steps doc' rest ≫= K)) ->
  (for_each (fun doc item => add_para doc (g item) kws) doc items ≫= F)
  = (run_steps doc (((fun item => Para (g item) kws) <$> items) ++ rest) ≫= K).
Proof.
  intros HF. revert doc.
  induction items as [|item items IH]; intros doc.
  - cbn [for_each fmap list_fmap app]. rewrite result_bind_Ok. apply HF.
  - cbn [for_each fmap list_fmap app].
    change (add_para doc (g item) kws) with (run_step doc (Para (g item) kws)).
    unfold run_steps. cbn [for_each].
    destruct (run_step doc (Para (g item) kws)) as [doc'|e]; [|reflexivity].
    rewrite !result_bind_Ok. apply IH.
Qed.

Lemma steps_done (K : Document -> result Document) doc :
  K doc = (run_steps doc [] ≫= K).
Proof. reflexivity. Qed.

Lemma run_steps_nil (K : Document -> result Document) doc :
  (run_steps doc [] ≫= K) = K doc.
Proof. reflexivity. Qed.

Lemma build_doc_steps args reference :
  build_doc args reference
  = (doc ← run_steps (set_doc_defaults new_document) (title_steps args);
     signed ← format_ru_date (sign_date args);
     doc ← run_steps doc (intro_steps args signed);
     dated ← format_ru_date (agreement_date args);
     run_steps doc (body_steps args reference dated)).
Proof.
  unfold build_doc. cbv zeta.
  rewrite !(getitem_clause reference) by clause_key.
  unfold title_steps, title_text, subtitle_text.
  apply steps_para; intros doc1.
  apply steps_para; intros doc2.
  rewrite run_steps_nil.
  apply result_bind_ext; intros signed.
  unfold intro_steps, intro_text.
  apply steps_city_line; intros doc3.
  apply steps_para; intros doc4.
  rewrite run_steps_nil.
  apply result_bind_ext; intros dated.
  rewrite <- (result_bind_ret (run_steps doc4 _)).
  unfold body_steps, signature_steps, heading_kws, body_kws, p11_text.
  do 3 (try rewrite result_bind_Ok; apply steps_para; intros ?; cbv beta).
  rewrite result_bind_Ok.
  apply (steps_for_each Ok _ (fun item => u "• " ++ item)); intros ?; cbv beta.
  do 12 (try rewrite result_bind_Ok; apply steps_para; intros ?; cbv beta).
  do 5 (apply steps_two_col; intros ?; cbv beta).
  reflexivity.
Qed.

(** *** Outcome of [build_doc] *)

Lemma Ok_inj {A} (a b : A) : Ok a = Ok b -> a = b.
Proof. intros [= ->]. reflexivity. Qed.

Lemma build_doc_decision args reference :
  build_doc args reference
  = if forallb step_valid (title_steps args) then
      match format_ru_date (sign_date args) with
      | Ok signed =>
          if forallb step_valid (intro_steps args signed) then
            match format_ru_date (agreement_date args) with
            | Ok dated =>
                if forallb step_valid (body_steps args reference dated)
                then Ok (extend (set_doc_defaults new_document)
                           (step_paragraph <$> steps args reference signed dated))
                else Raise ValueError
            | Raise e => Raise e
            end
          else Raise ValueError
      | Raise e => Raise e
      end
    else Raise ValueError.
Proof.
  rewrite build_doc_steps, run_steps_spec.
  destruct (forallb step_valid (title_steps args)); [|reflexivity].
  rewrite result_bind_Ok.
  destruct (format_ru_date (sign_date args)) as [signed|e]; [|reflexivity].
  rewrite result_bind_Ok, run_steps_spec.
  destruct (forallb step_valid (intro_steps args signed)); [|reflexivity].
  rewrite result_bind_Ok.
  destruct (format_ru_date (agreement_date args)) as [dated|e]; [|reflexivity].
  rewrite result_bind_Ok, run_steps_spec.
  destruct (forallb step_valid (body_steps args reference dated)); [|reflexivity].
  rewrite !extend_extend. unfold steps. rewrite !fmap_app.
  reflexivity.
Qed.

Lemma forallb_steps args reference signed dated :
  forallb step_valid (steps args reference signed dated)
  = forallb step_valid (title_steps args)
    && forallb step_valid (intro_steps args signed)
    && forallb step_valid (body_steps args reference dated).
Proof. unfold steps. rewrite !forallb_app, andb_assoc. reflexivity. Qed.

Lemma build_doc_ok args reference signed dated :
  format_ru_date (sign_date args) = Ok signed ->
  format_ru_date (agreement_date args) = Ok dated ->
  forallb step_valid (steps args reference signed dated) = true ->
  build_doc args reference
  = Ok (extend (set_doc_defaults new_document)
          (step_paragraph <$> steps args reference signed dated)).
Proof.
  intros Hsigned Hdated Hvalid.
  rewrite forallb_steps in Hvalid.
  apply andb_true_iff in Hvalid as [Hvalid Hbody].
  apply andb_true_iff in Hvalid as [Htitle Hintro].
  rewrite build_doc_decision, Htitle, Hsigned, Hintro, Hdated, Hbody.
  reflexivity.
Qed.

Lemma build_doc_ok_inv args reference doc :
  build_doc args reference = Ok doc ->
  exists signed dated,
    format_ru_date (sign_date args) = Ok signed
    /\ format_ru_date (agreement_date args) = Ok dated
    /\ forallb step_valid (steps args reference signed dated) = true
    /\ doc = extend (set_doc_defaults new_document)
               (step_paragraph <$> steps args reference signed dated).
Proof.
  rewrite build_doc_decision. intros Hdoc.
  destruct (forallb step_valid (title_steps args)) eqn:Htitle; [|discriminate].
  destruct (format_ru_date (sign_date args)) as [signed|e]; [|discriminate].
  destruct (forallb step_valid (intro_steps args signed)) eqn:Hintro; [|discriminate].
  destruct (format_ru_date (agreement_date args)) as [dated|e]; [|discriminate].
  destruct (forallb step_valid (body_steps args reference dated)) eqn:Hbody;
    [|discriminate].
  exists signed, dated.
  split; [reflexivity|]. split; [reflexivity|]. split.
  - rewrite forallb_steps, Htitle, Hintro, Hbody. reflexivity.
  - symmetry. apply Ok_inj. exact Hdoc.
Qed.

Lemma build_doc_raises_sign args reference e :
  format_ru_date (sign_date args) = Raise e -> raises (build_doc args reference).
Proof.
  intros Hsign. unfold raises. rewrite build_doc_decision, Hsign.
  destruct (forallb step_valid (title_steps args)); eexists; reflexivity.
Qed.

Lemma build_doc_raises_agreement args reference e :
  format_ru_date (agreement_date args) = Raise e -> raises (build_doc args reference).
Proof.
  intros Hdated. unfold raises. rewrite build_doc_decision, Hdated.
  destruct (forallb step_valid (title_steps args)); [|eexists; reflexivity].
  destruct (format_ru_date (sign_date args)) as [signed|e']; [|eexists; reflexivity].
  destruct (forallb step_valid (intro_steps args signed)); eexists; reflexivity.
Qed.

Lemma slice_off_suffix (n : nat) (x y : str) :
  length y = n -> slice_to_neg n (x ++ y) = x.
Proof.
  intros Hy. unfold slice_to_neg.
  rewrite length_app, Hy, Nat.add_sub. apply take_app_length.
Qed.

(** *** Texts of the output *)

Lemma text_step_paragraph s : text (step_paragraph s) = read_back (step_text s).
Proof.
  destruct s as [t kws|l r kws|t]; unfold text;
    cbn [step_paragraph step_text runs fmap list_fmap run_text concat].
  - apply app_nil_r.
  - rewrite app_nil_r, !read_back_app. reflexivity.
  - apply app_nil_r.
Qed.

Lemma paragraphs_extend doc ps : paragraphs (extend doc ps) = paragraphs doc ++ ps.
Proof. reflexivity. Qed.

Lemma texts_steps ss :
  texts (extend (set_doc_defaults new_document) (step_paragraph <$> ss))
  = read_back <$> (step_text <$> ss).
Proof.
  unfold texts. rewrite paragraphs_extend.
  change (paragraphs (set_doc_defaults new_document)) with (@nil Paragraph).
  rewrite app_nil_l, <- !list_fmap_compose.
  apply list_fmap_ext. intros i s _. apply text_step_paragraph.
Qed.

Lemma step_texts args reference signed dated :
  step_text <$> steps args reference signed dated
  = handed_texts args reference signed dated.
Proof.
  unfold steps, title_steps, intro_steps, body_steps, signature_steps,
    handed_texts, signature_rows.
  rewrite !fmap_app, <- list_fmap_compose.
  reflexivity.
Qed.

Lemma build_doc_texts args reference doc :
  build_doc args reference = Ok doc ->
  exists signed dated,
    format_ru_date (sign_date args) = Ok signed
    /\ format_ru_date (agreement_date args) = Ok dated
    /\ texts doc = read_back <$> handed_texts args reference signed dated.
Proof.
  intros Hdoc.
  destruct (build_doc_ok_inv args reference doc Hdoc)
    as (signed & dated & Hsigned & Hdated & _ & ->).
  exists signed, dated. split; [exact Hsigned|]. split; [exact Hdated|].
  rewrite texts_steps, step_texts. reflexivity.
Qed.

(** *** Which texts the constructors accept *)

Lemma compatible_nil : compatible [].
Proof. reflexivity. Qed.














(** For the keywords [build_doc] passes, a step is accepted exactly when its
    texts are. *)
Lemma step_valid_para t kws :
  step_valid (Para [] kws) = true -> step_valid (Para t kws) = xml_compatible t.
Proof.
  cbn [step_valid]. change (xml_compatible []) with true.
  destruct (unsigned_long (Pt (before (bind_para_kws kws)))); [|discriminate].
  destruct (unsigned_long (Pt (after (bind_para_kws kws)))); [|discriminate].
  destruct (unsigned_long (Pt (size (bind_para_kws kws)))); [|discriminate].
  intros _. cbn [andb]. apply andb_true_r.
Qed.

Lemma step_valid_two_col l r kws :
  step_valid (TwoCol [] [] kws) = true ->
  step_valid (TwoCol l r kws) = xml_compatible (l ++ [TAB] ++ r).
Proof.
  cbn [step_valid]. change (xml_compatible []) with true.
  destruct (unsigned_long (Pt (tc_after (bind_two_col_kws kws)))); [|discriminate].
  intros _. rewrite !xml_compatible_app. cbn [andb].
  change (xml_compatible [TAB]) with true. reflexivity.
Qed.

Ltac valid_step :=
  cbv beta; cbn [step_text];
  lazymatch goal with
  | |- step_valid (Para _ _) = _ => apply step_valid_para; vm_compute; reflexivity
  | |- step_valid (TwoCol _ _ _) = _ => apply step_valid_two_col; vm_compute; reflexivity
  | |- step_valid (CityLine _) = _ => reflexivity
  end.

Ltac valid_steps := repeat (apply Forall_cons_2; [valid_step|]); apply Forall_nil_2.

Lemma step_valid_text args reference signed dated :
  Forall (fun s => step_valid s = xml_compatible (step_text s))
         (steps args reference signed dated).
Proof.
  unfold steps, title_steps, intro_steps, body_steps, signature_steps,
    heading_kws, body_kws.
  apply Forall_app_2; [valid_steps|].
  apply Forall_app_2; [valid_steps|].
  apply Forall_app_2; [valid_steps|].
  apply Forall_app_2; [|apply Forall_app_2; valid_steps].
  apply Forall_fmap, Forall_true. intros item. unfold compose. valid_step.
Qed.

Lemma forallb_ext_Forall {A} (f g : A -> bool) xs :
  Forall (fun x => f x = g x) xs -> forallb f xs = forallb g xs.
Proof. induction 1 as [|x xs Hx _ IH]; cbn [forallb]; [reflexivity|]. rewrite Hx, IH. reflexivity. Qed.

Lemma steps_valid_iff args reference signed dated :
  forallb step_valid (steps args reference signed dated) = true
  <-> Forall compatible (handed_texts args reference signed dated).
Proof.
  rewrite (forallb_ext_Forall _ _ _ (step_valid_text args reference signed dated)).
  rewrite <- step_texts, Forall_fmap, forallb_forall, Forall_forall.
  split; intros H s Hs; apply H; apply list_elem_of_In; exact Hs.
Qed.


(** *** The constructors as steps *)









Lemma paragraphs_steps ss :
  paragraphs (extend (set_doc_defaults new_document) (step_paragraph <$> ss))
  = step_paragraph <$> ss.
Proof. reflexivity. Qed.



Lemma title_text_unfold args :
  title_text args = u "Дополнительное соглашение № " ++ ds_no args.
Proof. reflexivity. Qed.

(** * The claims *)

(** C1 (as the code has it).  The clause map has exactly the fifteen keys
    h1..h5, p12, p21..p23, p31, p32, p41..p43 and bullets; there is no key p11.
    Every key is bound, and its text is non-empty unless the reference document
    has a paragraph at the key's index whose cleaned text is empty. *)
Theorem clause_map_coverage (reference : list str) :
  dom (extract_template_blocks reference) = list_to_set clause_keys
  /\ Forall (fun slot : string * nat * str =>
               exists text,
                 extract_template_blocks reference !! slot.1.1 = Some text
                 /\ (text <> []
                     \/ exists raw, reference !! slot.1.2 = Some raw /\ clean raw = []))
            clause_slots.
Proof.
  split; [apply extract_dom|].
  apply Forall_forall. intros [[k i] fb] Hin. cbn [fst snd].
  rewrite (extract_lookup reference k i fb Hin).
  destruct (clause_slot_bounds k i fb Hin) as [_ Hfb].
  destruct (reference !! i) as [raw|] eqn:Hraw; simpl.
  - exists (clean raw). split; [reflexivity|].
    destruct (clean raw) as [|c rest] eqn:Hclean.
    + right. exists raw. split; [reflexivity | exact Hclean].
    + left. discriminate.
  - exists fb. split; [reflexivity | left; exact Hfb].
Qed.

(** C1, refuted as stated: the map has no key p11, and a reference document
    of seven blank paragraphs binds h1 to the empty string. *)
Lemma clause_map_gap_and_empty_text :
  extract_template_blocks [] !! "p11" = None
  /\ extract_template_blocks (replicate 7 (u " ")) !! "h1" = Some [].
Proof. split; vm_compute; reflexivity. Qed.

(** C2.  A reference document with fewer than seven paragraphs yields the
    fifteen keys, each bound to its built-in fallback text. *)
Theorem short_reference_gives_fallbacks (reference : list str) :
  (length reference < 7)%nat ->
  dom (extract_template_blocks reference) = list_to_set clause_keys
  /\ Forall (fun slot : string * nat * str =>
               extract_template_blocks reference !! slot.1.1 = Some slot.2)
            clause_slots.
Proof.
  intros Hshort. split; [apply extract_dom|].
  apply Forall_forall. intros [[k i] fb] Hin. cbn [fst snd].
  rewrite (extract_lookup reference k i fb Hin).
  destruct (clause_slot_bounds k i fb Hin) as [[Hlo _] _].
  rewrite (lookup_ge_None_2 reference i) by lia. reflexivity.
Qed.

Lemma short_reference_gives_fallbacks_witness :
  dom (extract_template_blocks [u "Договор"; u ""; u "г. Пермь"])
  = list_to_set clause_keys
  /\ Forall (fun slot : string * nat * str =>
               extract_template_blocks [u "Договор"; u ""; u "г. Пермь"] !! slot.1.1
               = Some slot.2)
            clause_slots.
Proof.
  apply (short_reference_gives_fallbacks [u "Договор"; u ""; u "г. Пермь"]).
  simpl. lia.
Defined.

(** C3.  For a reference document of at least 22 paragraphs every key is bound
    to the cleaned text of the paragraph at its index, where the cleaned text
    is the paragraph with U+2028 turned into newlines and U+00A0 into spaces,
    without its leading and trailing whitespace. *)
Theorem long_reference_gives_cleaned_paragraphs (reference : list str) :
  (22 <= length reference)%nat ->
  Forall (fun slot : string * nat * str =>
            exists raw,
              reference !! slot.1.2 = Some raw
              /\ extract_template_blocks reference !! slot.1.1 = Some (clean raw)
              /\ is_cleaned_text raw (clean raw))
         clause_slots.
Proof.
  intros Hlong. apply Forall_forall. intros [[k i] fb] Hin. cbn [fst snd].
  destruct (clause_slot_bounds k i fb Hin) as [[_ Hhi] _].
  destruct (lookup_lt_is_Some_2 reference i) as [raw Hraw]; [lia|].
  exists raw. split; [exact Hraw|]. split.
  - rewrite (extract_lookup reference k i fb Hin), Hraw. reflexivity.
  - apply clean_is_cleaned_text.
Qed.

Lemma long_reference_gives_cleaned_paragraphs_witness :
  Forall (fun slot : string * nat * str =>
            exists raw,
              sample_reference four_bullets !! slot.1.2 = Some raw
              /\ extract_template_blocks (sample_reference four_bullets) !! slot.1.1
                 = Some (clean raw)
              /\ is_cleaned_text raw (clean raw))
         clause_slots.
Proof.
  apply (long_reference_gives_cleaned_paragraphs (sample_reference four_bullets)).
  vm_compute. reflexivity.
Defined.

(** C4.  For a date D.M.Y whose day and year hold no dot and whose month is
    one of the codes 01..12, the date phraser returns «D» month-name Y года
    with the genitive month name of that code, day and year unchanged. *)
Theorem format_ru_date_phrase (D M Y name : str) :
  DOT ∉ D -> DOT ∉ Y ->
  (M, name) ∈ [ (u "01", u "января"); (u "02", u "февраля"); (u "03", u "марта");
                (u "04", u "апреля"); (u "05", u "мая"); (u "06", u "июня");
                (u "07", u "июля"); (u "08", u "августа"); (u "09", u "сентября");
                (u "10", u "октября"); (u "11", u "ноября"); (u "12", u "декабря") ] ->
  format_ru_date (D ++ [DOT] ++ M ++ [DOT] ++ Y)
  = Ok (u "«" ++ D ++ u "» " ++ name ++ u " " ++ Y ++ u " года").
Proof.
  intros HD HY HM. apply format_ru_date_ok; assumption.
Qed.

Lemma format_ru_date_phrase_witness :
  format_ru_date (u "15.03.2024") = Ok (u "«15» марта 2024 года").
Proof.
  refine (eq_trans _ (eq_trans
            (format_ru_date_phrase (u "15") (u "03") (u "2024") (u "марта") _ _ _) _)).
  - vm_compute. reflexivity.
  - compute_done.
  - compute_done.
  - compute_done.
  - vm_compute. reflexivity.
Defined.

(** C5.  For a date D.M.Y whose month is none of the codes 01..12 the date
    phraser raises: KeyError on the month when the three components hold no
    dot, ValueError otherwise.  Nothing catches it: [build_doc] raises too,
    whether the date is the signing date or the agreement date. *)
Theorem format_ru_date_rejects_unknown_month (D M Y : str) :
  M ∉ month_codes ->
  format_ru_date (D ++ [DOT] ++ M ++ [DOT] ++ Y)
  = Raise (if decide ((DOT ∉ D) /\ (DOT ∉ M) /\ (DOT ∉ Y))
           then KeyError M else ValueError)
  /\ (forall args reference,
        sign_date args = D ++ [DOT] ++ M ++ [DOT] ++ Y
        \/ agreement_date args = D ++ [DOT] ++ M ++ [DOT] ++ Y ->
        raises (build_doc args reference)).
Proof.
  intros HM. pose proof (format_ru_date_bad_month D M Y HM) as Hbad.
  split; [exact Hbad|].
  intros args reference [Hdate|Hdate].
  - eapply build_doc_raises_sign. rewrite Hdate. exact Hbad.
  - eapply build_doc_raises_agreement. rewrite Hdate. exact Hbad.
Qed.

Lemma format_ru_date_rejects_unknown_month_witness :
  format_ru_date (u "15" ++ [DOT] ++ u "13" ++ [DOT] ++ u "2024")
  = Raise (if decide ((DOT ∉ u "15") /\ (DOT ∉ u "13") /\ (DOT ∉ u "2024"))
           then KeyError (u "13") else ValueError)
  /\ (forall args reference,
        sign_date args = u "15" ++ [DOT] ++ u "13" ++ [DOT] ++ u "2024"
        \/ agreement_date args = u "15" ++ [DOT] ++ u "13" ++ [DOT] ++ u "2024" ->
        raises (build_doc args reference)).
Proof.
  apply (format_ru_date_rejects_unknown_month (u "15") (u "13") (u "2024")).
  compute_done.
Defined.

(** C6.  The case selector gives the agent forms for "agent" and the generic
    forms for "contract"; the two values get different phrases in either case;
    and it answers every input with one of the two phrases. *)
Theorem agreement_labels :
  agreement_label_dative (u "agent") = u "агентскому договору"
  /\ agreement_label_genitive (u "agent") = u "агентского договора"
  /\ agreement_label_dative (u "contract") = u "договору"
  /\ agreement_label_genitive (u "contract") = u "договора"
  /\ agreement_label_dative (u "agent") <> agreement_label_dative (u "contract")
  /\ agreement_label_genitive (u "agent") <> agreement_label_genitive (u "contract")
  /\ (forall kind,
        (agreement_label_dative kind = u "агентскому договору"
         /\ agreement_label_genitive kind = u "агентского договора")
        \/ (agreement_label_dative kind = u "договору"
            /\ agreement_label_genitive kind = u "договора")).
Proof.
  repeat split; try (vm_compute; (reflexivity || discriminate)).
  intros kind. unfold agreement_label_dative, agreement_label_genitive.
  destruct (decide (kind = u "agent")); [left | right]; split; reflexivity.
Qed.

(** C7.  Splitting the fallback bullets the way the renderer does gives
    exactly four items, each without a marker or whitespace in front and
    without whitespace behind. *)
Theorem fallback_bullets_items :
  bullet_items Fallback.bullets
  = [ u "администрирование размещений, подлежащих обязательной маркировке;";
      u "взаимодействие с рекламной платформой;";
      u "контроль корректности передачи данных;";
      u "формирование и сверку отчётности по маркируемой рекламе." ]
  /\ length (bullet_items Fallback.bullets) = 4%nat
  /\ Forall tidy_item (bullet_items Fallback.bullets).
Proof.
  assert (bullet_items Fallback.bullets
          = [ u "администрирование размещений, подлежащих обязательной маркировке;";
              u "взаимодействие с рекламной платформой;";
              u "контроль корректности передачи данных;";
              u "формирование и сверку отчётности по маркируемой рекламе." ]) as Hitems
    by (vm_compute; reflexivity).
  rewrite Hitems. split; [reflexivity|]. split; [reflexivity|].
  repeat (constructor 2;
          [split; intros c Hc; vm_compute in Hc; injection Hc as <-;
           [split; [compute_done | reflexivity] | reflexivity] |]).
  constructor 1.
Qed.









Lemma clause_slot_skips_7 k i fb : (k, i, fb) ∈ clause_slots -> i <> 7%nat.
Proof.
  intros Hin. unfold clause_slots in Hin.
  repeat (apply elem_of_cons in Hin as [[= -> -> ->]|Hin]; [lia|]).
  apply elem_of_nil in Hin. contradiction.
Qed.



(** * Further properties of the code *)

(** ** More on cleaning *)

Lemma normalize_code_point_range c :
  normalize_code_point c <> LINE_SEP /\ normalize_code_point c <> NBSP.
Proof.
  unfold normalize_code_point.
  destruct (Z.eqb_spec c LINE_SEP) as [->|H1]; [split; discriminate|].
  destruct (Z.eqb_spec c NBSP) as [->|H2]; [split; discriminate|].
  split; assumption.
Qed.

Lemma normalize_code_point_fixed c :
  c <> LINE_SEP -> c <> NBSP -> normalize_code_point c = c.
Proof.
  intros H1 H2. unfold normalize_code_point.
  destruct (Z.eqb_spec c LINE_SEP); [contradiction|].
  destruct (Z.eqb_spec c NBSP); [contradiction|]. reflexivity.
Qed.

Lemma dropwhile_fixed (f : Z -> bool) s :
  (forall c, head s = Some c -> f c = false) -> dropwhile f s = s.
Proof.
  destruct s as [|c s]; intros Hhead; simpl; [reflexivity|].
  rewrite (Hhead c eq_refl). reflexivity.
Qed.

Lemma strip_by_fixed (f : Z -> bool) s :
  (forall c, head s = Some c -> f c = false) ->
  (forall c, last s = Some c -> f c = false) ->
  rstrip_by f (lstrip_by f s) = s.
Proof.
  intros Hhead Hlast. unfold lstrip_by, rstrip_by.
  rewrite (dropwhile_fixed f s Hhead).
  rewrite (dropwhile_fixed f (reverse s)).
  - apply reverse_involutive.
  - intros c. rewrite head_reverse. apply Hlast.
Qed.

Lemma clean_has_no_separator raw : (LINE_SEP ∉ clean raw) /\ (NBSP ∉ clean raw).
Proof.
  rewrite clean_normalize.
  split; intros Hin; apply strip_by_subset in Hin;
    apply list_elem_of_fmap in Hin as (c & Hc & _);
    destruct (normalize_code_point_range c); congruence.
Qed.

Lemma clean_clean raw : clean (clean raw) = clean raw.
Proof.
  destruct (clean_has_no_separator raw) as [Hsep Hnbsp].
  destruct (clean_is_cleaned_text raw) as (lead & trail & _ & _ & _ & Hhead & Hlast).
  rewrite (clean_normalize (clean raw)).
  assert (normalize_code_point <$> clean raw = clean raw) as ->.
  { rewrite <- (list_fmap_id (clean raw)) at 2.
    apply list_fmap_ext. intros i c Hc. apply list_elem_of_lookup_2 in Hc.
    change (id c) with c.
    apply normalize_code_point_fixed; intros Heq; subst c; contradiction. }
  apply strip_by_fixed; assumption.
Qed.

(** X1.  Cleaning is idempotent, and a cleaned text holds neither U+2028 nor
    U+00A0. *)
Theorem clean_idempotent (raw : str) :
  clean (clean raw) = clean raw
  /\ (LINE_SEP ∉ clean raw) /\ (NBSP ∉ clean raw).
Proof. split; [apply clean_clean | apply clean_has_no_separator]. Qed.

(** ** More on splitting and the date phraser *)

(** X2.  The date phraser returns a phrase exactly for the strings D.M.Y with
    two dots and a month code of 01..12, and then the phrase is
    «D» month-name Y года. *)
Theorem format_ru_date_succeeds_iff_valid (s : str) :
  ((exists phrase, format_ru_date s = Ok phrase) <-> valid_date s)
  /\ (forall phrase,
        format_ru_date s = Ok phrase ->
        exists D M Y name,
          s = D ++ [DOT] ++ M ++ [DOT] ++ Y
          /\ (M, name) ∈ MONTHS_items
          /\ phrase = u "«" ++ D ++ u "» " ++ name ++ u " " ++ Y ++ u " года").
Proof.
  split; [split|].
  - intros [phrase Hok]. exact (format_ru_date_ok_valid s phrase Hok).
  - apply format_ru_date_valid.
  - intros phrase Hok.
    destruct (format_ru_date_ok_inv s phrase Hok)
      as (D & M & Y & name & Hs & _ & _ & HM & Hphrase).
    exists D, M, Y, name. repeat split; assumption.
Qed.

(** X3.  The date phraser raises ValueError exactly when the string does not
    hold two dots, and KeyError on the month exactly when it holds two dots
    and the text between them is no key of MONTHS. *)
Theorem format_ru_date_errors (s : str) :
  (format_ru_date s = Raise ValueError <-> count_occ Z.eq_dec s DOT <> 2%nat)
  /\ (forall key,
        format_ru_date s = Raise (KeyError key) <->
        exists D Y,
          s = D ++ [DOT] ++ key ++ [DOT] ++ Y
          /\ (DOT ∉ D) /\ (DOT ∉ key) /\ (DOT ∉ Y) /\ (key ∉ month_codes)).
Proof.
  pose proof (split_length DOT s) as Hlen.
  split; [split|intros key; split].
  - unfold format_ru_date.
    destruct (split DOT s) as [|D [|M [|Y [|extra rest]]]] eqn:Hs;
      simpl in Hlen; try (intros _; lia).
    unfold getitem. destruct (MONTHS !! M); discriminate.
  - intros Hcount. unfold format_ru_date.
    destruct (split DOT s) as [|D [|M [|Y [|extra rest]]]] eqn:Hs;
      simpl in Hlen; try reflexivity.
    exfalso. apply Hcount. lia.
  - unfold format_ru_date.
    destruct (split DOT s) as [|D [|M [|Y [|extra rest]]]] eqn:Hs; try discriminate.
    unfold getitem. destruct (MONTHS !! M) as [name|] eqn:HM; [discriminate|].
    intros [= <-].
    destruct (split_three_inv DOT s D M Y Hs) as (-> & HD & HMd & HY).
    exists D, Y. repeat split; try assumption.
    intros Hin. apply month_codes_items in Hin as [name Hname].
    apply month_code_facts in Hname as [_ Hname]. congruence.
  - intros (D & Y & -> & HD & HK & HY & Hkey).
    rewrite (format_ru_date_bad_month D key Y Hkey).
    destruct (decide ((DOT ∉ D) /\ (DOT ∉ key) /\ (DOT ∉ Y))) as [_|Hno];
      [reflexivity | exfalso; apply Hno; auto].
Qed.

(** X4.  Cutting the last five code points off a phrase, as [build_doc] does
    for paragraph 1.1, removes the trailing word and its space and nothing
    else: what is left is «D» month-name Y. *)
Theorem format_ru_date_slice (s phrase : str) :
  format_ru_date s = Ok phrase ->
  slice_to_neg 5 phrase ++ u " года" = phrase
  /\ exists D M Y name,
       s = D ++ [DOT] ++ M ++ [DOT] ++ Y
       /\ (M, name) ∈ MONTHS_items
       /\ slice_to_neg 5 phrase = u "«" ++ D ++ u "» " ++ name ++ u " " ++ Y.
Proof.
  intros Hok.
  destruct (format_ru_date_ok_inv s phrase Hok) as (D & M & Y & name & -> & HD & HY & HM & ->).
  assert (slice_to_neg 5 (u "«" ++ D ++ u "» " ++ name ++ u " " ++ Y ++ u " года")
          = u "«" ++ D ++ u "» " ++ name ++ u " " ++ Y) as Hslice.
  { rewrite !(app_assoc _ _ (u " года")), !app_assoc.
    rewrite (slice_off_suffix 5 _ (u " года")) by (vm_compute; reflexivity).
    rewrite <- !app_assoc. reflexivity. }
  split.
  - rewrite Hslice. rewrite <- !app_assoc. reflexivity.
  - exists D, M, Y, name. repeat split; assumption.
Qed.

Lemma format_ru_date_slice_witness :
  slice_to_neg 5 (u "«15» марта 2024 года") ++ u " года" = u "«15» марта 2024 года"
  /\ exists D M Y name,
       u "15.03.2024" = D ++ [DOT] ++ M ++ [DOT] ++ Y
       /\ (M, name) ∈ MONTHS_items
       /\ slice_to_neg 5 (u "«15» марта 2024 года") = u "«" ++ D ++ u "» " ++ name ++ u " " ++ Y.
Proof.
  apply (format_ru_date_slice (u "15.03.2024") (u "«15» марта 2024 года")).
  vm_compute. reflexivity.
Defined.

(** ** More on the bullet items *)

Lemma member_false chars c : member chars c = false -> c ∉ chars.
Proof.
  unfold member. intros Hm Hin.
  apply not_true_iff_false in Hm. apply Hm.
  apply existsb_exists. exists c. split; [apply list_elem_of_In, Hin | apply Z.eqb_refl].
Qed.

Lemma dropwhile_all (f : Z -> bool) s :
  Forall (fun c => f c = true) s -> dropwhile f s = [].
Proof.
  induction 1 as [|c s Hc _ IH]; simpl; [reflexivity|]. rewrite Hc. exact IH.
Qed.

(** X5.  Whatever the bullets clause, no bullet item holds a line feed or a
    carriage return, and none starts or ends with a space, hyphen, em dash or
    tab. *)
Theorem bullet_items_shape (bullets : str) :
  Forall (fun item =>
            (LF ∉ item) /\ (CR ∉ item)
            /\ (forall c, head item = Some c -> c ∉ [SPACE; HYPHEN; EM_DASH; TAB])
            /\ (forall c, last item = Some c -> c ∉ [SPACE; HYPHEN; EM_DASH; TAB]))
         (bullet_items bullets).
Proof.
  unfold bullet_items. apply Forall_fmap, Forall_forall. intros piece Hpiece.
  apply list_elem_of_filter in Hpiece as [_ Hpiece].
  pose proof (re_split_runs_pieces (fun _ => True) is_nl_cr false bullets
                (Forall_true _ _ (fun _ => I))) as Hpieces.
  rewrite Forall_forall in Hpieces. specialize (Hpieces piece Hpiece).
  rewrite Forall_forall in Hpieces.
  unfold compose, strip_chars.
  destruct (strip_by_spec (member [SPACE; HYPHEN; EM_DASH; TAB]) piece)
    as (lead & trail & _ & _ & _ & Hhead & Hlast).
  split; [|split; [|split]].
  - intros Hin. apply strip_by_subset, Hpieces in Hin as [_ Hcls].
    vm_compute in Hcls. discriminate.
  - intros Hin. apply strip_by_subset, Hpieces in Hin as [_ Hcls].
    vm_compute in Hcls. discriminate.
  - intros c Hc. apply member_false, Hhead, Hc.
  - intros c Hc. apply member_false, Hlast, Hc.
Qed.

(** X6.  A bullets clause made of whitespace only (the empty clause included)
    gives no bullet items. *)
Theorem bullet_items_blank (bullets : str) :
  Forall (fun c => isspace c = true) bullets -> bullet_items bullets = [].
Proof.
  intros Hblank. unfold bullet_items.
  pose proof (re_split_runs_pieces (fun c => isspace c = true) is_nl_cr false bullets Hblank)
    as Hpieces.
  unfold re_split_class.
  induction Hpieces as [|piece pieces Hpiece _ IH]; [reflexivity|].
  rewrite filter_cons_False; [exact IH|].
  intros Hne. apply Hne. unfold strip, lstrip_by, rstrip_by.
  rewrite (dropwhile_all isspace piece); [reflexivity|].
  eapply Forall_impl; [exact Hpiece|]. intros c [Hc _]. exact Hc.
Qed.

Lemma bullet_items_blank_witness : bullet_items [SPACE; LF; TAB; CR; NBSP] = [].
Proof.
  apply (bullet_items_blank [SPACE; LF; TAB; CR; NBSP]).
  repeat (constructor 2; [vm_compute; reflexivity|]). constructor 1.
Defined.

(** ** More on the template extractor *)

(** X7.  Key by key, the text is the cleaned paragraph at the key's index when
    the reference document has one, the fallback otherwise; nothing else is
    bound. *)
Theorem extract_slot_by_slot (reference : list str) :
  Forall (fun slot : string * nat * str =>
            extract_template_blocks reference !! slot.1.1
            = Some (match reference !! slot.1.2 with
                    | Some raw => clean raw
                    | None => slot.2
                    end))
         clause_slots
  /\ (forall k, k ∉ clause_keys -> extract_template_blocks reference !! k = None).
Proof.
  split.
  - apply Forall_forall. intros [[k i] fb] Hin. cbn [fst snd].
    rewrite (extract_lookup reference k i fb Hin).
    destruct (reference !! i); reflexivity.
  - intros k Hk. apply not_elem_of_dom. rewrite extract_dom.
    rewrite elem_of_list_to_set. exact Hk.
Qed.

Lemma extract_agree reference reference' :
  (forall i, (6 <= i <= 21)%nat -> i <> 7%nat -> reference !! i = reference' !! i) ->
  extract_template_blocks reference = extract_template_blocks reference'.
Proof.
  intros Hagree. rewrite !extract_template_blocks_slots. f_equal.
  apply list_fmap_ext. intros n [[k i] fb] Hn.
  apply list_elem_of_lookup_2 in Hn.
  pose proof (clause_slot_skips_7 k i fb Hn) as Hnot7.
  apply clause_slot_bounds in Hn as [Hrange _].
  unfold slot_entry. cbn [fst snd]. rewrite (Hagree i Hrange Hnot7). reflexivity.
Qed.

(** X8.  Two reference documents that agree on paragraphs 6 and 8 to 21
    (each present in both with the same text, or absent in both) give the same
    clause map and the same output. *)
Theorem extract_depends_on_slots_only (reference reference' : list str) :
  (forall i, (6 <= i <= 21)%nat -> i <> 7%nat -> reference !! i = reference' !! i) ->
  extract_template_blocks reference = extract_template_blocks reference'
  /\ (forall args, build_doc args reference = build_doc args reference').
Proof.
  intros Hagree. pose proof (extract_agree reference reference' Hagree) as Hsame.
  split; [exact Hsame|].
  intros args. unfold build_doc. cbv zeta. rewrite Hsame. reflexivity.
Qed.

Lemma extract_depends_on_slots_only_witness :
  extract_template_blocks (sample_reference four_bullets)
  = extract_template_blocks (replicate 6 (u "Шапка") ++ drop 6 (sample_reference four_bullets))
  /\ (forall args,
        build_doc args (sample_reference four_bullets)
        = build_doc args (replicate 6 (u "Шапка") ++ drop 6 (sample_reference four_bullets))).
Proof.
  apply (extract_depends_on_slots_only (sample_reference four_bullets)
           (replicate 6 (u "Шапка") ++ drop 6 (sample_reference four_bullets))).
  intros i [Hlo Hhi] _.
  do 6 (destruct i as [|i]; [lia|]).
  reflexivity.
Defined.

(** X9.  Only the first 22 paragraphs of the reference document are read:
    cutting it to 22 paragraphs, or appending to one that has 22, changes
    neither the clause map nor the output. *)
Theorem extract_reads_first_22 (reference : list str) :
  extract_template_blocks (take 22 reference) = extract_template_blocks reference
  /\ (forall more, (22 <= length reference)%nat ->
        extract_template_blocks (reference ++ more) = extract_template_blocks reference)
  /\ (forall args, build_doc args (take 22 reference) = build_doc args reference).
Proof.
  assert (extract_template_blocks (take 22 reference) = extract_template_blocks reference)
    as Htake.
  { apply extract_agree. intros i [_ Hi] _. apply lookup_take_lt. lia. }
  split; [exact Htake|]. split.
  - intros more Hlong. apply extract_agree. intros i [_ Hi] _.
    apply lookup_app_l. lia.
  - intros args. unfold build_doc. cbv zeta. rewrite Htake. reflexivity.
Qed.

(** X10.  Every reference document shorter than seven paragraphs gives the
    same clause map and the same output as an empty one. *)
Theorem short_reference_same_as_empty (args : Namespace) (reference : list str) :
  (length reference < 7)%nat ->
  extract_template_blocks reference = extract_template_blocks []
  /\ build_doc args reference = build_doc args [].
Proof.
  intros Hshort.
  assert (extract_template_blocks reference = extract_template_blocks []) as Hsame.
  { apply extract_agree. intros i [Hi _] _.
    rewrite lookup_nil. apply lookup_ge_None_2. lia. }
  split; [exact Hsame|].
  unfold build_doc. cbv zeta. rewrite Hsame. reflexivity.
Qed.

Lemma short_reference_same_as_empty_witness :
  extract_template_blocks [u "Договор"; u ""; u "г. Пермь"] = extract_template_blocks []
  /\ build_doc sample_args [u "Договор"; u ""; u "г. Пермь"] = build_doc sample_args [].
Proof.
  apply (short_reference_same_as_empty sample_args [u "Договор"; u ""; u "г. Пермь"]).
  cbn [length]. lia.
Defined.

Lemma fallbacks_are_clean k i fb : (k, i, fb) ∈ clause_slots -> clean fb = fb.
Proof.
  unfold clause_slots. intros Hin.
  repeat (apply elem_of_cons in Hin as [[= -> -> ->]|Hin]; [vm_compute; reflexivity|]).
  apply elem_of_nil in Hin. contradiction.
Qed.

(** X11.  Every text of the clause map is clean already: it holds no U+2028 and
    no U+00A0, has no whitespace at either end, and cleaning it again changes
    nothing. *)
Theorem clause_texts_are_clean (reference : list str) :
  map_Forall (fun _ t =>
                clean t = t
                /\ (LINE_SEP ∉ t) /\ (NBSP ∉ t)
                /\ (forall c, head t = Some c -> isspace c = false)
                /\ (forall c, last t = Some c -> isspace c = false))
             (extract_template_blocks reference).
Proof.
  intros k t Hk.
  assert (clean t = t) as Hclean.
  { rewrite extract_template_blocks_slots in Hk.
    apply elem_of_list_to_map_2, list_elem_of_fmap in Hk as ([[k' i] fb] & [= -> ->] & Hin).
    cbn [fst snd]. destruct (reference !! i) as [raw|]; simpl.
    - apply clean_clean.
    - apply (fallbacks_are_clean k' i fb Hin). }
  split; [exact Hclean|]. rewrite <- Hclean.
  destruct (clean_has_no_separator t) as [Hsep Hnbsp].
  destruct (clean_is_cleaned_text t) as (lead & trail & _ & _ & _ & Hhead & Hlast).
  repeat split; assumption.
Qed.

(** ** More on the renderer *)

Lemma fmap_const {A B} (f : A -> B) (c : B) (l : list A) :
  (forall x, f x = c) -> f <$> l = replicate (length l) c.
Proof.
  intros Hf. induction l as [|x l IH]; cbn [fmap list_fmap length replicate]; [reflexivity|].
  rewrite Hf. f_equal. exact IH.
Qed.

Lemma page_setup_extend doc ps : page_setup (extend doc ps) = page_setup doc.
Proof. reflexivity. Qed.

(** X12.  Every document [build_doc] returns has margins of 1134 twips (2 cm
    in whole twips) on all four sides and Times New Roman 12 pt as its Normal
    font: the paragraph constructors leave the document-wide settings alone. *)
Theorem build_doc_page_setup (args : Namespace) (reference : list str) (doc : Document) :
  build_doc args reference = Ok doc ->
  page_setup doc
  = (Some (Twips 1134), Some (Twips 1134), Some (Twips 1134), Some (Twips 1134),
     Some (u "Times New Roman"), Some (Pt 12)).
Proof.
  intros Hdoc.
  destruct (build_doc_ok_inv args reference doc Hdoc)
    as (signed & dated & _ & _ & _ & ->).
  rewrite page_setup_extend. vm_compute. reflexivity.
Qed.

Lemma uniform_step_paragraph s : uniform_paragraph (step_paragraph s).
Proof.
  destruct s as [t kws|l r kws|t]; (split; [reflexivity|]).
  - constructor 2; [left; reflexivity | constructor 1].
  - constructor 2; [left; reflexivity|].
    constructor 2; [right; repeat split|].
    constructor 2; [left; reflexivity | constructor 1].
  - constructor 2; [left; reflexivity | constructor 1].
Qed.

(** X13.  In every document [build_doc] returns, every paragraph has line
    spacing 1.15, and every run either names Times New Roman or is the bare tab
    between the two columns of a signature row, which sets no font, size or
    bold of its own. *)
Theorem build_doc_uniform (args : Namespace) (reference : list str) (doc : Document) :
  build_doc args reference = Ok doc ->
  Forall uniform_paragraph (paragraphs doc).
Proof.
  intros Hdoc.
  destruct (build_doc_ok_inv args reference doc Hdoc)
    as (signed & dated & _ & _ & _ & ->).
  rewrite paragraphs_steps. apply Forall_fmap, Forall_true.
  intros s. apply uniform_step_paragraph.
Qed.

Section style_sequence.
Context {A : Type} (f : Paragraph -> A).
Context (g : para_options -> A) (h : two_col_options -> A) (c : A).
Hypothesis f_para : forall t kws, f (step_paragraph (Para t kws)) = g (bind_para_kws kws).
Hypothesis f_two_col :
  forall l r kws, f (step_paragraph (TwoCol l r kws)) = h (bind_two_col_kws kws).
Hypothesis f_city : forall t, f (step_paragraph (CityLine t)) = c.

Lemma observed_step s :
  f (step_paragraph s)
  = match s with
    | Para _ kws => g (bind_para_kws kws)
    | TwoCol _ _ kws => h (bind_two_col_kws kws)
    | CityLine _ => c
    end.
Proof. destruct s; [apply f_para | apply f_two_col | apply f_city]. Qed.

(** Whatever is observed of a paragraph apart from its text follows the same
    fixed sequence in every output. *)
Lemma build_doc_observed args reference doc :
  build_doc args reference = Ok doc ->
  f <$> paragraphs doc
  = [ g (bind_para_kws [align_ CENTER; bold_ true; size_ 14; after_ 6; first_indent_ false]);
      g (bind_para_kws [align_ CENTER; size_ 12; after_ 10; first_indent_ false]);
      c;
      g (bind_para_kws [after_ 8]);
      g (bind_para_kws heading_kws);
      g (bind_para_kws (body_kws 4));
      g (bind_para_kws (body_kws 3)) ]
    ++ replicate (length (bullet_items (clause reference "bullets")))
         (g (bind_para_kws (body_kws 2)))
    ++ [ g (bind_para_kws heading_kws);
         g (bind_para_kws (body_kws 3)); g (bind_para_kws (body_kws 3));
         g (bind_para_kws (body_kws 6));
         g (bind_para_kws heading_kws);
         g (bind_para_kws (body_kws 3)); g (bind_para_kws (body_kws 6));
         g (bind_para_kws heading_kws);
         g (bind_para_kws (body_kws 3)); g (bind_para_kws (body_kws 3));
         g (bind_para_kws (body_kws 8));
         g (bind_para_kws heading_kws) ]
    ++ [ h (bind_two_col_kws [tc_bold_ true; tc_after_ 4]);
         h (bind_two_col_kws [tc_after_ 2]);
         h (bind_two_col_kws [tc_after_ 8]);
         h (bind_two_col_kws [tc_after_ 2]);
         h (bind_two_col_kws [tc_after_ 0]) ].
Proof.
  intros Hdoc.
  destruct (build_doc_ok_inv args reference doc Hdoc)
    as (signed & dated & _ & _ & _ & ->).
  rewrite paragraphs_steps, <- list_fmap_compose.
  rewrite (list_fmap_ext (f ∘ step_paragraph)
             (fun s => match s with
                       | Para _ kws => g (bind_para_kws kws)
                       | TwoCol _ _ kws => h (bind_two_col_kws kws)
                       | CityLine _ => c
                       end)
             _ (fun _ s _ => observed_step s)).
  unfold steps, title_steps, intro_steps, body_steps, signature_steps.
  rewrite !fmap_app, <- list_fmap_compose.
  rewrite (fmap_const _ (g (bind_para_kws (body_kws 2)))
             (bullet_items (clause reference "bullets"))) by reflexivity.
  reflexivity.
Qed.

End style_sequence.

(** X14.  In every document [build_doc] returns, the intro (the fourth
    paragraph) has a first-line indent of 709 twips (1.25 cm in whole twips)
    and no other paragraph has one. *)
Theorem build_doc_first_line_indents (args : Namespace) (reference : list str) (doc : Document) :
  build_doc args reference = Ok doc ->
  first_line_indent <$> paragraphs doc
  = [None; None; None; Some (Twips 709)]
    ++ replicate (20 + length (bullet_items (clause reference "bullets"))) None.
Proof.
  intros Hdoc.
  rewrite (build_doc_observed first_line_indent
             (fun o => if first_indent o then Some (Twips 709) else None)
             (fun _ => None) None
             (fun _ _ => eq_refl) (fun _ _ _ => eq_refl) (fun _ => eq_refl)
             args reference doc Hdoc).
  generalize (length (bullet_items (clause reference "bullets"))). intros n.
  replace (20 + n)%nat with (3 + (n + 17))%nat by lia.
  rewrite !replicate_add. reflexivity.
Qed.

(** X15.  Alignment, bold and font size of the output, paragraph by
    paragraph: the title is centred, bold, 14 pt; the subtitle centred; the
    city/date line sets no alignment; headings and the first signature row
    are left-aligned and bold; body paragraphs and bullet items are justified
    and not bold; the other signature rows are left-aligned and not bold;
    everything but the title is 12 pt. *)
Theorem build_doc_styles (args : Namespace) (reference : list str) (doc : Document) :
  build_doc args reference = Ok doc ->
  let heading := (Some LEFT, Some true, Some (Pt 12)) in
  let body := (Some JUSTIFY, Some false, Some (Pt 12)) in
  style <$> paragraphs doc
  = [ (Some CENTER, Some true, Some (Pt 14));
      (Some CENTER, Some false, Some (Pt 12));
      (None, None, Some (Pt 12));
      body; heading; body; body ]
    ++ replicate (length (bullet_items (clause reference "bullets"))) body
    ++ [ heading; body; body; body;
         heading; body; body;
         heading; body; body; body;
         heading ]
    ++ [ (Some LEFT, Some true, Some (Pt 12));
         (Some LEFT, Some false, Some (Pt 12));
         (Some LEFT, Some false, Some (Pt 12));
         (Some LEFT, Some false, Some (Pt 12));
         (Some LEFT, Some false, Some (Pt 12)) ].
Proof.
  intros Hdoc heading body. subst heading body.
  rewrite (build_doc_observed style
             (fun o => (Some (align o), Some (bold o), Some (Pt (size o))))
             (fun o => (Some LEFT, Some (tc_bold o), Some (Pt 12)))
             (None, None, Some (Pt 12))
             (fun _ _ => eq_refl) (fun _ _ _ => eq_refl) (fun _ => eq_refl)
             args reference doc Hdoc).
  generalize (length (bullet_items (clause reference "bullets"))). intros n.
  reflexivity.
Qed.

Lemma drop_to_suffix {A} (front rows : list A) (k : nat) :
  length rows = k -> drop (length (front ++ rows) - k) (front ++ rows) = rows.
Proof.
  intros <-. rewrite length_app, Nat.add_sub. apply drop_app_length.
Qed.

Lemma take_3_texts (x0 x1 x2 : str) (l l' : list str) :
  take 3 (read_back <$> ((x0 :: x1 :: x2 :: l) ++ l')) = read_back <$> [x0; x1; x2].
Proof. reflexivity. Qed.

Lemma subtitle_text_unfold args :
  subtitle_text args
  = u "к " ++ agreement_label_dative (agreement_kind args) ++ u " № "
      ++ agreement_no args ++ u " от " ++ agreement_date args ++ u ".".
Proof. reflexivity. Qed.

Lemma signature_rows_unfold args :
  signature_rows args
  = [ u "Принципал" ++ [TAB] ++ u "Агент";
      principal_short args ++ [TAB] ++ u "ИП Замятин Николай Григорьевич";
      principal_position_sign args ++ [TAB] ++ u "";
      u "____________ М.П." ++ [TAB] ++ u "____________ М.П.";
      principal_signer_short args ++ [TAB] ++ u "Замятин Н.Г." ].
Proof. reflexivity. Qed.

(** X16.  The texts of the first three paragraphs and of the last five, each
    read back with a line feed for every carriage return: the subtitle carries
    the agreement date as given (not phrased), the city/date line the city, a
    tab and the phrased signing date, and each signature row the principal's
    column, a tab and the agent's column. *)
Theorem build_doc_fixed_texts
    (args : Namespace) (reference : list str) (doc : Document) (signed : str) :
  format_ru_date (sign_date args) = Ok signed ->
  build_doc args reference = Ok doc ->
  take 3 (texts doc)
  = read_back
      <$> [ u "Дополнительное соглашение № " ++ ds_no args;
            u "к " ++ agreement_label_dative (agreement_kind args) ++ u " № "
              ++ agreement_no args ++ u " от " ++ agreement_date args ++ u ".";
            city args ++ [TAB] ++ signed ]
  /\ drop (length (texts doc) - 5) (texts doc)
     = read_back
         <$> [ u "Принципал" ++ [TAB] ++ u "Агент";
               principal_short args ++ [TAB] ++ u "ИП Замятин Николай Григорьевич";
               principal_position_sign args ++ [TAB] ++ u "";
               u "____________ М.П." ++ [TAB] ++ u "____________ М.П.";
               principal_signer_short args ++ [TAB] ++ u "Замятин Н.Г." ].
Proof.
  intros Hsigned Hdoc.
  destruct (build_doc_texts args reference doc Hdoc)
    as (signed' & dated & Hsigned' & _ & ->).
  rewrite Hsigned in Hsigned'. apply Ok_inj in Hsigned'. subst signed'.
  unfold handed_texts. split.
  - rewrite take_3_texts, title_text_unfold, subtitle_text_unfold. reflexivity.
  - rewrite 2!(app_assoc _ _ (signature_rows args)), fmap_app, signature_rows_unfold.
    apply drop_to_suffix. reflexivity.
Qed.

(** X17.  The outcome of [build_doc], in the order the code decides it:
    ValueError when the title or the subtitle is refused; else the exception
    of the signing date; else ValueError when the city/date line or the intro
    is refused; else the exception of the agreement date; else ValueError
    when a later paragraph is refused; else the document with one paragraph
    per step.  A clause key is never missing, and a paragraph is refused only
    for its text: [build_doc] succeeds exactly when both dates are phrased and
    every text handed to a constructor is XML-compatible. *)
Theorem build_doc_outcome (args : Namespace) (reference : list str) :
  build_doc args reference
  = (if forallb step_valid (title_steps args) then
       match format_ru_date (sign_date args) with
       | Ok signed =>
           if forallb step_valid (intro_steps args signed) then
             match format_ru_date (agreement_date args) with
             | Ok dated =>
                 if forallb step_valid (body_steps args reference dated)
                 then Ok (extend (set_doc_defaults new_document)
                            (step_paragraph <$> steps args reference signed dated))
                 else Raise ValueError
             | Raise e => Raise e
             end
           else Raise ValueError
       | Raise e => Raise e
       end
     else Raise ValueError)
  /\ (forall signed dated,
        Forall (fun s => step_valid s = xml_compatible (step_text s))
               (steps args reference signed dated))
  /\ ((exists doc, build_doc args reference = Ok doc)
      <-> exists signed dated,
            format_ru_date (sign_date args) = Ok signed
            /\ format_ru_date (agreement_date args) = Ok dated
            /\ Forall compatible (handed_texts args reference signed dated)).
Proof.
  split; [apply build_doc_decision|]. split; [apply step_valid_text|].
  split.
  - intros [doc Hdoc].
    destruct (build_doc_ok_inv args reference doc Hdoc)
      as (signed & dated & Hsigned & Hdated & Hvalid & _).
    exists signed, dated. split; [exact Hsigned|]. split; [exact Hdated|].
    apply steps_valid_iff, Hvalid.
  - intros (signed & dated & Hsigned & Hdated & Htexts).
    eexists. apply (build_doc_ok args reference signed dated Hsigned Hdated).
    apply steps_valid_iff, Htexts.
Qed.

(** X18.  Spacing before and after and the tab stops of the output, paragraph
    by paragraph (in points and twips): headings have 8 before and 4 after,
    bullet items 2 after, the city/date line a right tab stop at 9354 twips
    (16.5 cm) and the signature rows a left tab stop at 4989 twips (8.8 cm). *)
Theorem build_doc_spacing (args : Namespace) (reference : list str) (doc : Document) :
  build_doc args reference = Ok doc ->
  let para (before after : Z) := (Some (Pt before), Some (Pt after), []) in
  let row (after : Z) := (None, Some (Pt after), [(Twips 4989, TAB_LEFT)]) in
  (fun p => (space_before p, space_after p, tab_stops p)) <$> paragraphs doc
  = [ para 0 6; para 0 10; (None, Some (Pt 8), [(Twips 9354, TAB_RIGHT)]);
      para 0 8; para 8 4; para 0 4; para 0 3 ]
    ++ replicate (length (bullet_items (clause reference "bullets"))) (para 0 2)
    ++ [ para 8 4; para 0 3; para 0 3; para 0 6;
         para 8 4; para 0 3; para 0 6;
         para 8 4; para 0 3; para 0 3; para 0 8;
         para 8 4 ]
    ++ [ row 4; row 2; row 8; row 2; row 0 ].
Proof.
  intros Hdoc para row. subst para row.
  rewrite (build_doc_observed (fun p => (space_before p, space_after p, tab_stops p))
             (fun o => (Some (Pt (before o)), Some (Pt (after o)), []))
             (fun o => (None, Some (Pt (tc_after o)), [(Twips 4989, TAB_LEFT)]))
             (None, Some (Pt 8), [(Twips 9354, TAB_RIGHT)])
             (fun _ _ => eq_refl) (fun _ _ _ => eq_refl) (fun _ => eq_refl)
             args reference doc Hdoc).
  generalize (length (bullet_items (clause reference "bullets"))). intros n.
  reflexivity.
Qed.

(** Witnesses on the sample inputs. *)

Lemma build_doc_page_setup_witness :
  page_setup sample_doc
  = (Some (Twips 1134), Some (Twips 1134), Some (Twips 1134), Some (Twips 1134),
     Some (u "Times New Roman"), Some (Pt 12)).
Proof.
  apply (build_doc_page_setup sample_args (sample_reference four_bullets) sample_doc).
  vm_compute. reflexivity.
Defined.

Lemma build_doc_uniform_witness : Forall uniform_paragraph (paragraphs sample_doc).
Proof.
  apply (build_doc_uniform sample_args (sample_reference four_bullets) sample_doc).
  vm_compute. reflexivity.
Defined.

Lemma build_doc_first_line_indents_witness :
  first_line_indent <$> paragraphs sample_doc
  = [None; None; None; Some (Twips 709)] ++ replicate 24 None.
Proof.
  rewrite (build_doc_first_line_indents sample_args (sample_reference four_bullets)
             sample_doc).
  - vm_compute. reflexivity.
  - vm_compute. reflexivity.
Defined.

Lemma build_doc_styles_witness :
  (style <$> paragraphs sample_doc) !! 0%nat = Some (Some CENTER, Some true, Some (Pt 14))
  /\ (style <$> paragraphs sample_doc) !! 11%nat = Some (Some LEFT, Some true, Some (Pt 12)).
Proof.
  rewrite (build_doc_styles sample_args (sample_reference four_bullets) sample_doc).
  - split; vm_compute; reflexivity.
  - vm_compute. reflexivity.
Defined.

Lemma build_doc_spacing_witness :
  ((fun p => (space_before p, space_after p, tab_stops p)) <$> paragraphs sample_doc)
    !! 2%nat
  = Some (None, Some (Pt 8), [(Twips 9354, TAB_RIGHT)]).
Proof.
  rewrite (build_doc_spacing sample_args (sample_reference four_bullets) sample_doc).
  - vm_compute. reflexivity.
  - vm_compute. reflexivity.
Defined.

Lemma build_doc_fixed_texts_witness :
  take 3 (texts sample_doc)
  = [ u "Дополнительное соглашение № 7";
      u "к агентскому договору № AG-092023-1880 от 15.03.2024.";
      u "г. Пермь" ++ [TAB] ++ u "«01» декабря 2025 года" ]
  /\ drop (length (texts sample_doc) - 5) (texts sample_doc)
     = [ u "Принципал" ++ [TAB] ++ u "Агент";
         u "ООО «Ромашка»" ++ [TAB] ++ u "ИП Замятин Николай Григорьевич";
         u "Генеральный директор" ++ [TAB];
         u "____________ М.П." ++ [TAB] ++ u "____________ М.П.";
         u "Иванов И.И." ++ [TAB] ++ u "Замятин Н.Г." ].
Proof.
  destruct (build_doc_fixed_texts sample_args (sample_reference four_bullets) sample_doc
              (u "«01» декабря 2025 года")) as [Hfirst Hlast].
  - vm_compute. reflexivity.
  - vm_compute. reflexivity.
  - rewrite Hfirst, Hlast. split; vm_compute; reflexivity.
Defined.
